(** * reset_elo_usb.py: USB bus reset utility for Elo touch screens

    A shallow embedding of [reset_elo_usb.py] and the properties of its
    bus locator ([find_elo_buses]), its reset coordinator
    ([reset_buses_parallel]) and its entry point ([main]).

    Conventions of the embedding:
    - Python [int] is [Z]; [str] and [pathlib.Path] are [string];
    - time is counted in whole milliseconds ([Z]): the [float] seconds of
      the script ([1.0]) read [1000];
    - a call that may raise returns a [py_result];
    - the host (effective uid, USB enumeration, sysfs, the duration and
      outcome of every sysfs write) is a record [World] the functions read;
    - the driver thread's clock and the calls it makes are threaded through
      a state-and-exception monad [M];
    - [logger] calls are left out: they do not touch control flow. *)

From stdpp Require Import gmap strings pretty list.
From Stdlib Require Import ZArith Lia Ascii.

Local Open Scope string_scope.
Local Open Scope list_scope.
Local Open Scope Z_scope.

(** ** Python run-time notions *)

Module Py.

(** The exception classes the script meets. [KeyboardInterrupt] and
    [SystemExit] derive from [BaseException] only; the others derive from
    [Exception]. *)
Inductive exc_class :=
  | PermissionError
  | OSError
  | TimeoutError
  | TypeError
  | ValueError
  | OverflowError
  | NoBackendError
  | USBError
  | USBBusResetError
  | KeyboardInterrupt
  | SystemExit.

Record exn := Exn { exc_type : exc_class; exc_msg : string }.

(** [isinstance(e, Exception)] *)
Definition is_Exception (e : exn) : bool :=
  match exc_type e with
  | KeyboardInterrupt | SystemExit => false
  | _ => true
  end.

(** [isinstance(e, cls)] for the leaf classes named in [except] clauses. *)
Definition is_class (c : exc_class) (e : exn) : bool :=
  match c, exc_type e with
  | PermissionError, PermissionError
  | USBBusResetError, USBBusResetError
  | KeyboardInterrupt, KeyboardInterrupt => true
  | _, _ => false
  end.

Inductive py_result (A : Type) :=
  | Ok (a : A)
  | Raise (e : exn).
Arguments Ok {A} a.
Arguments Raise {A} e.

(** [x or default] on an [Optional] number: [None] and zero are falsy. *)
Definition py_or (x : option Z) (default : Z) : Z :=
  match x with
  | None => default
  | Some v => if v =? 0 then default else v
  end.

(** What [@dataclass(eq=..., frozen=..., unsafe_hash=...)] does to
    [__hash__] (the table of the [dataclasses] documentation). *)
Record dataclass_params :=
  { dc_eq : bool; dc_frozen : bool; dc_unsafe_hash : bool }.

Inductive hash_method :=
  | HashFields      (* __hash__ generated from the fields *)
  | HashNone        (* __hash__ = None: instances are unhashable *)
  | HashInherited.  (* object.__hash__ is kept *)

Definition dataclass_hash (p : dataclass_params) : hash_method :=
  if dc_unsafe_hash p then HashFields
  else if dc_eq p then (if dc_frozen p then HashFields else HashNone)
  else HashInherited.

(** A bare [@dataclass]. *)
Definition dataclass_default : dataclass_params :=
  {| dc_eq := true; dc_frozen := false; dc_unsafe_hash := false |}.

End Py.
Import Py.

(** ** Constants *)

Definition ELO_VENDOR_ID : Z := 0x04E7.
Definition DEFAULT_RESET_DELAY : Z := 1000.
Definition SYSFS_USB_PATH : string := "/sys/bus/usb/devices".

(** [future.result(timeout=1.0)] *)
Definition RESULT_TIMEOUT : Z := 1000.

(** The two texts written to a control file: the digit and a line feed,
    Python's ["0\n"] and ["1\n"]. *)
Definition deauthorize : string := String "0"%char (String "010"%char "").
Definition authorize : string := String "1"%char (String "010"%char "").

(** [Path.__truediv__] on relative components. *)
Definition path_join (p q : string) : string := p +:+ "/" +:+ q.

(** ** Data model *)

Record USBBusInfo := mkBus
  { bus_number : Z; device_count : Z; sysfs_path : string }.

Global Instance USBBusInfo_eq_dec : EqDecision USBBusInfo.
Proof. solve_decision. Defined.

(** [USBBusInfo] is declared with a bare [@dataclass]. *)
Definition USBBusInfo_hash : hash_method := dataclass_hash dataclass_default.

(** [hash(x)] for an instance of [USBBusInfo]; the value itself is not
    needed, only whether the call raises. *)
Definition py_hash (x : USBBusInfo) : py_result unit :=
  match USBBusInfo_hash with
  | HashNone => Raise (Exn TypeError "unhashable type: 'USBBusInfo'")
  | HashFields | HashInherited => Ok tt
  end.

(** [set(iterable)]: every element is hashed, then added unless an equal
    element is already there. *)
Fixpoint py_set_add (acc : list USBBusInfo) (xs : list USBBusInfo)
  : py_result (list USBBusInfo) :=
  match xs with
  | [] => Ok acc
  | x :: xs' =>
      match py_hash x with
      | Raise e => Raise e
      | Ok _ =>
          py_set_add (if decide (x ∈ acc) then acc else acc ++ [x]) xs'
      end
  end.

Definition py_set (xs : list USBBusInfo) : py_result (list USBBusInfo) :=
  py_set_add [] xs.

(** A device record of the enumeration facility. *)
Record Device := mkDevice { idVendor : Z; bus : Z }.

(** ** The host *)

(** The outcome of one [write_text] call: how many milliseconds after its
    submission to the pool (or after the call, when the driver thread
    writes itself) the call ends, any wait for a free worker included, and
    the exception it ends with, if any. *)
Record fate := mkFate { latency : Z; raised : option exn }.

Record World := mkWorld
  { geteuid : Z;
    (* the devices the backend lists, or the error it raises *)
    usb_devices : py_result (list Device);
    (* [p.exists()] asked while the [i]-th matching device is examined *)
    path_exists : nat → string → bool;
    (* [p.write_text(data)] *)
    write_text : string → string → fate }.

(** [usb.core.find(find_all=True, idVendor=vendor_id)] *)
Definition usb_core_find (w : World) (vendor_id : Z)
  : py_result (list Device) :=
  match usb_devices w with
  | Ok ds => Ok (filter (λ d, idVendor d = vendor_id) ds)
  | Raise e => Raise e
  end.

(** ** Bus locator *)

(** [SYSFS_USB_PATH / f"usb{bus_num}" / "authorized"] *)
Definition control_path (bus_num : Z) : string :=
  path_join (path_join SYSFS_USB_PATH ("usb" +:+ pretty bus_num)) "authorized".

(** The body of [for device in devices], from the [i]-th device on.
    Returns the dictionary [buses] and the paths handed to [exists()], in
    call order. *)
Fixpoint scan_devices (w : World) (i : nat) (devices : list Device)
    (buses : gmap Z USBBusInfo) : gmap Z USBBusInfo * list string :=
  match devices with
  | [] => (buses, [])
  | device :: rest =>
      let bus_num := bus device in
      match buses !! bus_num with
      | None =>
          let sysfs_path := control_path bus_num in
          let r :=
            if negb (path_exists w i sysfs_path) then
              (* continue *)
              scan_devices w (S i) rest buses
            else
              scan_devices w (S i) rest
                (<[bus_num := mkBus bus_num 1 sysfs_path]> buses) in
          (r.1, sysfs_path :: r.2)
      | Some info =>
          scan_devices w (S i) rest
            (<[bus_num := mkBus (bus_number info) (device_count info + 1)
                                (sysfs_path info)]> buses)
      end
  end.

(** [buses.values()]; its only reader is [set(...)], which does not depend
    on the order. *)
Definition dict_values (buses : gmap Z USBBusInfo) : list USBBusInfo :=
  (map_to_list buses).*2.

(** The dictionary at the end of the [try] block of [find_elo_buses];
    [usb_backend()] only fetches the backend and yields it. *)
Definition accepted_buses (w : World) (vendor_id : Z)
  : py_result (gmap Z USBBusInfo) :=
  match usb_core_find w vendor_id with
  | Ok devices => Ok (scan_devices w 0 devices ∅).1
  | Raise e => Raise e
  end.

Definition find_elo_buses (w : World) (vendor_id : Z)
  : py_result (list USBBusInfo) :=
  match accepted_buses w vendor_id with
  | Raise e =>
      if is_Exception e then
        Raise (Exn USBBusResetError
                 ("Failed to enumerate USB devices: " +:+ exc_msg e))
      else Raise e
  | Ok buses => py_set (dict_values buses)
  end.

(** ** The driver thread *)

(** What [future.result(timeout=...)] ends with. *)
Inductive wait_outcome :=
  | Returned
  | Raised (e : exn)
  | TimedOut.

(** The calls of the driver thread that reach the pool, the clock or
    sysfs. *)
Inductive action :=
  | Submit (path data : string)                     (* executor.submit *)
  | Waited (path data : string) (o : wait_outcome)  (* future.result *)
  | Slept (d : Z)                                   (* time.sleep *)
  | Wrote (path data : string) (r : option exn).    (* direct write_text *)

Record event := Ev { ev_time : Z; ev_act : action }.

Record driver := Driver { now : Z; trace : list event }.

Definition start (t0 : Z) : driver := Driver t0 [].

Definition M (A : Type) : Type := driver → driver * py_result A.

Global Instance M_ret : MRet M := λ A a s, (s, Ok a).

Global Instance M_bind : MBind M := λ A B k m s,
  match m s with
  | (s', Ok a) => k a s'
  | (s', Raise e) => (s', Raise e)
  end.

Definition ret {A} (a : A) : M A := mret a.

Definition raise {A} (e : exn) : M A := λ s, (s, Raise e).

(** [try: body except ...: handler]; [handler e = None] when no clause
    matches [e]. *)
Definition try_except {A} (body : M A) (handler : exn → option (M A))
  : M A := λ s,
  match body s with
  | (s', Ok a) => (s', Ok a)
  | (s', Raise e) =>
      match handler e with
      | Some h => h s'
      | None => (s', Raise e)
      end
  end.

(** [except Exception as e: h] *)
Definition except_Exception {A} (h : exn → M A) : exn → option (M A) :=
  λ e, if is_Exception e then Some (h e) else None.

(** [time.sleep] first converts its argument to a signed 64-bit count of
    nanoseconds and raises [OverflowError] when it does not fit; then it
    refuses a negative count with [ValueError]. [SLEEP_MAX] is the largest
    whole number of milliseconds that fits. *)
Definition SLEEP_MAX : Z := 9223372036854.

Definition sleep_overflow : exn :=
  Exn OverflowError "timestamp too large to convert to C _PyTime_t".

Definition negative_sleep : exn :=
  Exn ValueError "sleep length must be non-negative".

(** The exception [time.sleep(d)] raises before sleeping, if any. *)
Definition sleep_error (d : Z) : option exn :=
  if (d <? - SLEEP_MAX) || (SLEEP_MAX <? d) then Some sleep_overflow
  else if d <? 0 then Some negative_sleep
  else None.

(** [time.sleep(d)] *)
Definition sleep (d : Z) : M unit := λ s,
  match sleep_error d with
  | Some e => (s, Raise e)
  | None =>
      (Driver (now s + d) (trace s ++ [Ev (now s + d) (Slept d)]), Ok tt)
  end.

(** A future remembers the call it stands for and when it was queued. *)
Record future := mkFuture
  { fut_path : string; fut_data : string; fut_submitted : Z }.

(** [executor.submit(lambda b: b.sysfs_path.write_text(data), bus)] *)
Definition submit (path data : string) : M future := λ s,
  (Driver (now s) (trace s ++ [Ev (now s) (Submit path data)]),
   Ok (mkFuture path data (now s))).

Section Host.
Variable w : World.

(** When the write behind a future ends. *)
Definition done_at (f : future) : Z :=
  fut_submitted f + latency (write_text w (fut_path f) (fut_data f)).

(** Blocking on [f] from time [t] for at most [timeout]: when the wait
    ends, and with what. *)
Definition wait (f : future) (timeout : Z) (t : Z) : Z * wait_outcome :=
  if done_at f <=? t + timeout then
    (Z.max t (done_at f),
     match raised (write_text w (fut_path f) (fut_data f)) with
     | None => Returned
     | Some e => Raised e
     end)
  else (t + timeout, TimedOut).

(** [future.result(timeout=timeout)] *)
Definition future_result (f : future) (timeout : Z) : M unit := λ s,
  let '(t, o) := wait f timeout (now s) in
  (Driver t (trace s ++ [Ev t (Waited (fut_path f) (fut_data f) o)]),
   match o with
   | Returned => Ok tt
   | Raised e => Raise e
   | TimedOut => Raise (Exn TimeoutError "")
   end).

(** A [write_text] call made by the driver thread itself. *)
Definition write_text_now (path data : string) : M unit := λ s,
  let f := write_text w path data in
  let t := now s + latency f in
  (Driver t (trace s ++ [Ev t (Wrote path data (raised f))]),
   match raised f with
   | None => Ok tt
   | Some e => Raise e
   end).

(** ** Resetting one bus *)

Definition reset_usb_bus (bus_info : USBBusInfo) (reset_delay : Z)
  : M bool :=
  try_except
    (write_text_now (sysfs_path bus_info) deauthorize ;;
     sleep reset_delay ;;
     write_text_now (sysfs_path bus_info) authorize ;;
     ret true)
    (λ e, if is_class PermissionError e then Some (ret false)
          else if is_Exception e then Some (ret false)
          else None).

(** ** Reset coordinator *)

(** [for bus in buses: futures.append((executor.submit(...), bus))] *)
Fixpoint submit_all (data : string) (buses : list USBBusInfo)
  : M (list (future * USBBusInfo)) :=
  match buses with
  | [] => ret []
  | bus :: rest =>
      f ← submit (sysfs_path bus) data ;
      fs ← submit_all data rest ;
      ret ((f, bus) :: fs)
  end.

(** The loop over [disable_futures]. *)
Fixpoint await_disabled (disable_futures : list (future * USBBusInfo))
  : M unit :=
  match disable_futures with
  | [] => ret tt
  | (f, bus) :: rest =>
      try_except (future_result f RESULT_TIMEOUT)
        (except_Exception (λ _, ret tt)) ;;
      await_disabled rest
  end.

(** The loop over [enable_futures], with its counter. *)
Fixpoint count_enabled (enable_futures : list (future * USBBusInfo))
    (success_count : Z) : M Z :=
  match enable_futures with
  | [] => ret success_count
  | (f, bus) :: rest =>
      c ← try_except
            (future_result f RESULT_TIMEOUT ;; ret (success_count + 1))
            (except_Exception (λ _, ret success_count)) ;
      count_enabled rest c
  end.

(** [buses] is the collection in its iteration order. Leaving the [with]
    block waits for the workers still running ([shutdown(wait=True)]); that
    only delays the return and is not traced. *)
Definition reset_buses_parallel (buses : list USBBusInfo) (reset_delay : Z)
  : M Z :=
  match buses with
  | [] => ret 0
  | _ =>
      disable_futures ← submit_all deauthorize buses ;
      await_disabled disable_futures ;;
      sleep reset_delay ;;
      enable_futures ← submit_all authorize buses ;
      count_enabled enable_futures 0
  end.

(** ** Entry point *)

Definition check_permissions : bool := bool_decide (geteuid w = 0).

(** [len(buses)] *)
Definition len (buses : list USBBusInfo) : Z := Z.of_nat (length buses).

(** The [try] statement of [main], given what
    [find_elo_buses(vendor_id=vid)] returned or raised. *)
Definition main_from (found : py_result (list USBBusInfo)) (delay : Z)
  : M Z :=
  try_except
    (match found with
     | Raise e => raise e
     | Ok buses =>
         match buses with
         | [] => ret 0
         | _ =>
             success_count ← reset_buses_parallel buses delay ;
             if success_count =? len buses then ret 0
             else if success_count >? 0 then ret 2
             else ret 1
         end
     end)
    (λ e, if is_class USBBusResetError e then Some (ret 1)
          else if is_class KeyboardInterrupt e then Some (ret 130)
          else if is_Exception e then Some (ret 1)
          else None).

Definition main (reset_delay vendor_id : option Z) : M Z :=
  if negb check_permissions then ret 1
  else
    let delay := py_or reset_delay DEFAULT_RESET_DELAY in
    let vid := py_or vendor_id ELO_VENDOR_ID in
    main_from (find_elo_buses w vid) delay.

End Host.

(** ** Vocabulary of the properties *)

Global Instance exc_class_eq_dec : EqDecision exc_class.
Proof. solve_decision. Defined.
Global Instance exn_eq_dec : EqDecision exn.
Proof. solve_decision. Defined.
Global Instance wait_outcome_eq_dec : EqDecision wait_outcome.
Proof. solve_decision. Defined.
Global Instance action_eq_dec : EqDecision action.
Proof. solve_decision. Defined.
Global Instance event_eq_dec : EqDecision event.
Proof. solve_decision. Defined.

(** How many of [devices] sit on bus [b]. *)
Definition devices_on (b : Z) (devices : list Device) : Z :=
  Z.of_nat (length (filter (λ d, bus d = b) devices)).

(** How often [exists()] was asked about [p]. *)
Definition times_checked (p : string) (checks : list string) : nat :=
  length (filter (λ q, q = p) checks).



(** A host whose sysfs does not change during the pass. *)
Definition static_world (euid : Z) (devices : list Device)
    (present : string → bool) (wr : string → string → fate) : World :=
  mkWorld euid (Ok devices) (λ _, present) wr.

Definition quick_ok : fate := mkFate 2 None.


(** The end-to-end scenario of the specification: vendor [0x04E7] on
    buses 1 (two devices) and 3 (one device), every path present, every
    write accepted. *)
Definition world_two_buses : World :=
  static_world 0
    [mkDevice ELO_VENDOR_ID 1; mkDevice ELO_VENDOR_ID 3;
     mkDevice ELO_VENDOR_ID 1]
    (λ _, true) (λ _ _, quick_ok).

(** A host that lists [devices], whose every control path is present, and
    whose sysfs writes behave as [wr] says. *)
Definition host_with (devices : list Device) (wr : string → string → fate)
  : World := static_world 0 devices (λ _, true) wr.

Definition bus1 : USBBusInfo := mkBus 1 2 (control_path 1).
Definition bus3 : USBBusInfo := mkBus 3 1 (control_path 3).

(** The events and futures of one [for bus in buses: executor.submit(...)]
    loop run at time [t]. *)
Definition submits (data : string) (t : Z) (buses : list USBBusInfo)
  : list event :=
  map (λ b, Ev t (Submit (sysfs_path b) data)) buses.

Definition futures_of (data : string) (t : Z) (buses : list USBBusInfo)
  : list (future * USBBusInfo) :=
  map (λ b, (mkFuture (sysfs_path b) data t, b)) buses.

(** What a wait that ended at [t] with [o] says about the write behind
    [f]: it ended by [t], or it was still running when the wait gave up
    after its full timeout. *)
Definition wait_settled (w : World) (f : future) (o : wait_outcome) (t : Z)
  : Prop :=
  match o with
  | TimedOut => fut_submitted f + RESULT_TIMEOUT ≤ t ∧ t < done_at w f
  | Returned | Raised _ => done_at w f ≤ t
  end.

(** [ev] is the end, between [lo] and [hi], of a wait on one of [futs]. *)
Definition is_wait_of (w : World) (futs : list (future * USBBusInfo))
    (lo hi : Z) (ev : event) : Prop :=
  ∃ f o, f ∈ futs.*1 ∧
         ev_act ev = Waited (fut_path f) (fut_data f) o ∧
         lo ≤ ev_time ev ≤ hi ∧
         wait_settled w f o (ev_time ev).

(** Every future of [futs] was waited on in [evs]. *)
Definition all_waited (w : World) (futs : list (future * USBBusInfo))
    (evs : list event) : Prop :=
  ∀ f, f ∈ futs.*1 →
       ∃ t o, Ev t (Waited (fut_path f) (fut_data f) o) ∈ evs ∧
              wait_settled w f o t.

(** The waits of [evs] that returned normally. *)
Definition is_returned (ev : event) : bool :=
  match ev_act ev with
  | Waited _ _ Returned => true
  | _ => false
  end.

Definition returned_waits (evs : list event) : list event :=
  filter (λ ev, is_returned ev) evs.

(** A future that raised past [except Exception]. *)
Definition escaped (w : World) (futs : list (future * USBBusInfo)) (e : exn)
  : Prop :=
  ∃ f, f ∈ futs.*1 ∧
       raised (write_text w (fut_path f) (fut_data f)) = Some e ∧
       is_Exception e = false.

(** The reading of the specification of a fully reset bus: its phase-1
    wait and its phase-2 wait both returned normally. *)
Definition write_succeeded (tr : list event) (path data : string) : bool :=
  bool_decide (Exists (λ ev, ev_act ev = Waited path data Returned) tr).

Definition fully_reset (tr : list event) (b : USBBusInfo) : bool :=
  write_succeeded tr (sysfs_path b) deauthorize &&
  write_succeeded tr (sysfs_path b) authorize.

Definition spec_success_count (tr : list event) (buses : list USBBusInfo)
  : Z :=
  Z.of_nat (length (filter (λ b, fully_reset tr b) buses)).

(** Buses 1 and 3; the phase-1 write of bus 1 is refused. *)
Definition world_disable_denied : World :=
  host_with
    [mkDevice ELO_VENDOR_ID 1; mkDevice ELO_VENDOR_ID 3;
     mkDevice ELO_VENDOR_ID 1]
    (λ p data,
       if decide (p = control_path 1 ∧ data = deauthorize)
       then mkFate 2 (Some (Exn PermissionError "Permission denied"))
       else quick_ok).

(** Buses 1 and 3; the phase-1 write of bus 1 takes five seconds. *)
Definition world_slow_disable : World :=
  host_with
    [mkDevice ELO_VENDOR_ID 1; mkDevice ELO_VENDOR_ID 3;
     mkDevice ELO_VENDOR_ID 1]
    (λ p data,
       if decide (p = control_path 1 ∧ data = deauthorize)
       then mkFate 5000 None
       else quick_ok).

(** The reading of the specification: what is written is one ASCII digit
    and nothing else. *)
Definition single_digit_writes (tr : list event) : Prop :=
  ∀ t p data, Ev t (Submit p data) ∈ tr → data = "0" ∨ data = "1".


(** A phase-2 wait that returned normally. *)
Definition enable_returned (ev : event) : bool :=
  match ev_act ev with
  | Waited _ data Returned => bool_decide (data = authorize)
  | _ => false
  end.

(** The write of [data] to the control file of [b] ends without an
    exception; it does so within the time a wait grants it. *)
Definition write_ok (w : World) (data : string) (b : USBBusInfo) : bool :=
  bool_decide (raised (write_text w (sysfs_path b) data) = None).

Definition write_prompt (w : World) (data : string) (b : USBBusInfo) : bool :=
  write_ok w data b &&
  (latency (write_text w (sysfs_path b) data) <=? RESULT_TIMEOUT).

(** How many of [buses] satisfy [P]. *)
Definition count_buses (P : USBBusInfo → bool) (buses : list USBBusInfo)
  : Z :=
  Z.of_nat (length (filter (λ b, P b) buses)).

(** An enable write, submitted to the pool or made directly. *)
Definition is_enable_write (ev : event) : bool :=
  match ev_act ev with
  | Submit _ data | Wrote _ data _ => bool_decide (data = authorize)
  | _ => false
  end.

(** ** The bus locator *)

Lemma py_set_nil : py_set [] = Ok [].
Proof. reflexivity. Qed.

Lemma py_set_cons x xs :
  py_set (x :: xs) = Raise (Exn TypeError "unhashable type: 'USBBusInfo'").
Proof. reflexivity. Qed.

Lemma dict_values_nil (m : gmap Z USBBusInfo) : dict_values m = [] ↔ m = ∅.
Proof.
  unfold dict_values. rewrite <- map_to_list_empty_iff.
  split.
  - apply fmap_nil_inv.
  - intros ->. reflexivity.
Qed.

Lemma string_length_app (s t : string) :
  String.length (s +:+ t) = (String.length s + String.length t)%nat.
Proof. induction s as [|c s IH]; simpl; [reflexivity | by rewrite IH]. Qed.

Lemma string_app_inv_tail (s a b : string) : a +:+ s = b +:+ s → a = b.
Proof.
  revert b. induction a as [|c a IH]; intros [|c' b] H.
  - reflexivity.
  - exfalso. apply (f_equal String.length) in H.
    rewrite !string_length_app in H. simpl in H. lia.
  - exfalso. apply (f_equal String.length) in H.
    rewrite !string_length_app in H. simpl in H. lia.
  - injection H as -> H. f_equal. by apply IH.
Qed.

Global Instance control_path_inj : Inj (=) (=) control_path.
Proof.
  intros a b H. unfold control_path, path_join in H.
  apply string_app_inv_tail in H.
  do 3 apply (inj (String.app _)) in H.
  by apply (inj pretty) in H.
Qed.

Lemma devices_on_nonneg b devices : 0 ≤ devices_on b devices.
Proof. unfold devices_on. lia. Qed.

Lemma devices_on_cons b d devices :
  devices_on b (d :: devices) =
  (if decide (bus d = b) then 1 else 0) + devices_on b devices.
Proof.
  unfold devices_on. rewrite filter_cons.
  destruct (decide (bus d = b)); simpl length; lia.
Qed.

Lemma times_checked_cons p q checks :
  times_checked p (q :: checks) =
  ((if decide (q = p) then 1 else 0) + times_checked p checks)%nat.
Proof.
  unfold times_checked. rewrite filter_cons.
  destruct (decide (q = p)); reflexivity.
Qed.

(** On a host whose sysfs does not change during the pass, the dictionary
    ends with, for every bus number, the device count of the pass added to
    the entry it started with, and a fresh entry exactly for the buses that
    were sighted and whose control path is present. *)
Lemma scan_devices_static w present :
  (∀ i p, path_exists w i p = present p) →
  ∀ devices i (buses : gmap Z USBBusInfo) b,
    (scan_devices w i devices buses).1 !! b =
    match buses !! b with
    | Some info =>
        Some (mkBus (bus_number info)
                (device_count info + devices_on b devices) (sysfs_path info))
    | None =>
        if present (control_path b) && (0 <? devices_on b devices)
        then Some (mkBus b (devices_on b devices) (control_path b))
        else None
    end.
Proof.
  intros Hstatic. induction devices as [|d rest IH]; intros i buses b.
  - simpl. destruct (buses !! b) as [[bn c p]|] eqn:Hb.
    + simpl. do 2 f_equal. unfold devices_on. simpl. lia.
    + by rewrite andb_false_r.
  - rewrite devices_on_cons. pose proof (devices_on_nonneg b rest) as Hn.
    simpl. destruct (buses !! bus d) as [info|] eqn:Hd.
    + rewrite IH. destruct (decide (bus d = b)) as [Heq|Hne].
      * rewrite Heq in *. rewrite lookup_insert_eq, Hd. simpl.
        do 2 f_equal. lia.
      * rewrite lookup_insert_ne by done. by destruct (buses !! b).
    + simpl. rewrite Hstatic.
      destruct (present (control_path (bus d))) eqn:Hp; simpl; rewrite IH.
      * destruct (decide (bus d = b)) as [Heq|Hne].
        -- rewrite Heq in *. rewrite lookup_insert_eq, Hd, Hp. simpl.
           replace (0 <? 1 + devices_on b rest) with true
             by (symmetry; apply Z.ltb_lt; lia).
           done.
        -- rewrite lookup_insert_ne by done. by destruct (buses !! b).
      * destruct (decide (bus d = b)) as [Heq|Hne].
        -- rewrite Heq in *. by rewrite Hd, Hp.
        -- by destruct (buses !! b).
Qed.


(** Every entry of the dictionary sits under its own bus number and holds
    that bus's control path. *)
Lemma scan_devices_keys w :
  ∀ devices i (buses : gmap Z USBBusInfo),
    (∀ k x, buses !! k = Some x →
            bus_number x = k ∧ sysfs_path x = control_path k) →
    ∀ k x, (scan_devices w i devices buses).1 !! k = Some x →
           bus_number x = k ∧ sysfs_path x = control_path k.
Proof.
  induction devices as [|d rest IH]; intros i buses Hinv; [exact Hinv|].
  simpl. destruct (buses !! bus d) as [info|] eqn:Hd.
  - apply IH. intros k x. destruct (decide (bus d = k)) as [<-|Hne].
    + rewrite lookup_insert_eq. intros [= <-]. simpl. by apply Hinv.
    + rewrite lookup_insert_ne by done. apply Hinv.
  - simpl. destruct (path_exists w i (control_path (bus d))); simpl.
    + apply IH. intros k x. destruct (decide (bus d = k)) as [<-|Hne].
      * rewrite lookup_insert_eq. by intros [= <-].
      * rewrite lookup_insert_ne by done. apply Hinv.
    + by apply IH.
Qed.





(** C7, evaluated on the end-to-end scenario of the specification (vendor
    [0x04E7], two devices on bus 1, one on bus 3, both control paths
    present): the dictionary holds one descriptor per bus with the right
    counts, and the conversion to a set raises [TypeError], so no
    descriptor is produced. *)
Theorem C7_descriptors_lost_to_TypeError :
  (∃ buses,
     accepted_buses world_two_buses ELO_VENDOR_ID = Ok buses ∧
     buses !! 1 = Some (mkBus 1 2 (control_path 1)) ∧
     buses !! 3 = Some (mkBus 3 1 (control_path 3)) ∧
     length (dict_values buses) = 2%nat) ∧
  find_elo_buses world_two_buses ELO_VENDOR_ID =
    Raise (Exn TypeError "unhashable type: 'USBBusInfo'").
Proof.
  split; [|by vm_compute].
  eexists. split; [reflexivity|]. by vm_compute.
Qed.

(** On a host whose sysfs does not change during the pass, the dictionary
    built by the locator holds exactly one descriptor for every bus number
    that was sighted and whose control path is present, with the number of
    matching devices on that bus as its count. *)
Lemma accepted_buses_static euid devices present wr vendor_id :
  ∃ buses,
    accepted_buses (static_world euid devices present wr) vendor_id
      = Ok buses ∧
    ∀ b,
      let n := devices_on b (filter (λ d, idVendor d = vendor_id) devices) in
      buses !! b =
        if present (control_path b) && (0 <? n)
        then Some (mkBus b n (control_path b)) else None.
Proof.
  eexists. split; [reflexivity|]. intros b. simpl.
  rewrite (scan_devices_static _ present) by done.
  by rewrite lookup_empty.
Qed.

(** ** The driver thread *)

Lemma sleep_error_None d : sleep_error d = None ↔ 0 ≤ d ≤ SLEEP_MAX.
Proof.
  unfold sleep_error.
  destruct (Z.ltb_spec d (- SLEEP_MAX));
    destruct (Z.ltb_spec SLEEP_MAX d);
    destruct (Z.ltb_spec d 0); simpl; unfold SLEEP_MAX in *;
    split; (done || lia).
Qed.

Lemma sleep_error_negative d :
  - SLEEP_MAX ≤ d < 0 → sleep_error d = Some negative_sleep.
Proof.
  unfold sleep_error. intros Hd.
  destruct (Z.ltb_spec d (- SLEEP_MAX)); [lia|].
  destruct (Z.ltb_spec SLEEP_MAX d); [lia|].
  destruct (Z.ltb_spec d 0); [done | lia].
Qed.

Lemma sleep_error_overflow d :
  d < - SLEEP_MAX ∨ SLEEP_MAX < d → sleep_error d = Some sleep_overflow.
Proof.
  unfold sleep_error. intros Hd.
  destruct (Z.ltb_spec d (- SLEEP_MAX)); [done|].
  destruct (Z.ltb_spec SLEEP_MAX d); [done | lia].
Qed.


Lemma wait_spec w f t t' o :
  wait w f RESULT_TIMEOUT t = (t', o) →
  t ≤ t' ∧
  match o with
  | TimedOut => t' = t + RESULT_TIMEOUT ∧ t' < done_at w f
  | Returned =>
      done_at w f ≤ t' ∧
      raised (write_text w (fut_path f) (fut_data f)) = None
  | Raised e =>
      done_at w f ≤ t' ∧
      raised (write_text w (fut_path f) (fut_data f)) = Some e
  end.
Proof.
  unfold wait, RESULT_TIMEOUT.
  destruct (done_at w f <=? t + 1000) eqn:Hle.
  - apply Z.leb_le in Hle. intros [= <- <-].
    destruct (raised _); (split; [lia | split; [lia | done]]).
  - apply Z.leb_gt in Hle. intros [= <- <-]. lia.
Qed.

Lemma submit_all_run data buses s :
  submit_all data buses s =
  (Driver (now s) (trace s ++ submits data (now s) buses),
   Ok (futures_of data (now s) buses)).
Proof.
  revert s. induction buses as [|b rest IH]; intros [t tr].
  - simpl. by rewrite app_nil_r.
  - simpl. unfold mbind, M_bind, submit. simpl. rewrite IH. simpl.
    by rewrite <- app_assoc.
Qed.

Lemma guarded_wait_run w f s :
  ∃ t o,
    wait w f RESULT_TIMEOUT (now s) = (t, o) ∧
    try_except (future_result w f RESULT_TIMEOUT)
      (except_Exception (λ _, ret tt)) s =
    (Driver t (trace s ++ [Ev t (Waited (fut_path f) (fut_data f) o)]),
     match o with
     | Raised e => if is_Exception e then Ok tt else Raise e
     | Returned | TimedOut => Ok tt
     end).
Proof.
  destruct (wait w f RESULT_TIMEOUT (now s)) as [t o] eqn:Hw.
  exists t, o. split; [done|].
  unfold try_except, future_result. rewrite Hw.
  destruct o as [|e|]; try done.
  unfold except_Exception. by destruct (is_Exception e).
Qed.

Lemma counted_wait_run w f c s :
  ∃ t o,
    wait w f RESULT_TIMEOUT (now s) = (t, o) ∧
    try_except (future_result w f RESULT_TIMEOUT ;; ret (c + 1))
      (except_Exception (λ _, ret c)) s =
    (Driver t (trace s ++ [Ev t (Waited (fut_path f) (fut_data f) o)]),
     match o with
     | Returned => Ok (c + 1)
     | Raised e => if is_Exception e then Ok c else Raise e
     | TimedOut => Ok c
     end).
Proof.
  destruct (wait w f RESULT_TIMEOUT (now s)) as [t o] eqn:Hw.
  exists t, o. split; [done|].
  unfold try_except, mbind, M_bind, future_result. rewrite Hw.
  destruct o as [|e|]; try done.
  unfold except_Exception. by destruct (is_Exception e).
Qed.

Lemma is_wait_of_mono w futs futs' lo lo' hi hi' ev :
  futs.*1 ⊆ futs'.*1 → lo' ≤ lo → hi ≤ hi' →
  is_wait_of w futs lo hi ev → is_wait_of w futs' lo' hi' ev.
Proof.
  intros Hsub Hlo Hhi (f & o & Hf & Hact & Ht & Hset).
  exists f, o. split_and!; [by apply Hsub | done | lia | lia | done].
Qed.

Lemma escaped_cons w fb futs e : escaped w futs e → escaped w (fb :: futs) e.
Proof.
  intros (f & Hf & Hr & He). exists f. split_and!; [|done|done].
  simpl. by right.
Qed.

Lemma all_waited_cons w f b futs t o evs :
  wait_settled w f o t →
  all_waited w futs evs →
  all_waited w ((f, b) :: futs)
    (Ev t (Waited (fut_path f) (fut_data f) o) :: evs).
Proof.
  intros Hset Hall f0 Hf0. simpl in Hf0.
  apply elem_of_cons in Hf0 as [->|Hf0].
  - exists t, o. split; [by left | done].
  - destruct (Hall f0 Hf0) as (t1 & o1 & Hin & Hs1).
    exists t1, o1. split; [by right | done].
Qed.

(** The event a wait leaves behind is a wait event of its future. *)
Lemma wait_event_settled w f b rest t0 t o :
  fut_submitted f ≤ t0 →
  wait w f RESULT_TIMEOUT t0 = (t, o) →
  t0 ≤ t ∧ wait_settled w f o t ∧
  ∀ hi, t ≤ hi →
    is_wait_of w ((f, b) :: rest) t0 hi
      (Ev t (Waited (fut_path f) (fut_data f) o)).
Proof.
  intros Hsub Hw. apply wait_spec in Hw as [Hle Ho].
  assert (Hset : wait_settled w f o t).
  { destruct o; simpl in *; [tauto | tauto | lia]. }
  split_and!; [done | done |].
  intros hi Hhi. exists f, o. simpl.
  split_and!; [by left | done | lia | lia | done].
Qed.

Lemma is_wait_of_tail w fb futs lo lo' hi ev :
  lo' ≤ lo →
  is_wait_of w futs lo hi ev → is_wait_of w (fb :: futs) lo' hi ev.
Proof.
  intros Hlo. apply is_wait_of_mono; [|done|done].
  simpl. intros x Hx. by right.
Qed.

Lemma await_disabled_spec w futs : ∀ s s' r,
  (∀ f, f ∈ futs.*1 → fut_submitted f ≤ now s) →
  await_disabled w futs s = (s', r) →
  ∃ evs,
    trace s' = trace s ++ evs ∧ now s ≤ now s' ∧
    Forall (is_wait_of w futs (now s) (now s')) evs ∧
    (r = Ok tt → all_waited w futs evs) ∧
    (∀ e, r = Raise e → escaped w futs e).
Proof.
  induction futs as [|[f b] rest IH]; intros s s' r Hsub Hrun.
  - injection Hrun as <- <-. exists []. rewrite app_nil_r.
    split_and!; [done | lia | done | | done].
    intros _ f Hf. simpl in Hf. by apply elem_of_nil in Hf.
  - simpl in Hrun. unfold mbind, M_bind in Hrun.
    destruct (guarded_wait_run w f s) as (t & o & Hw & Hstep).
    rewrite Hstep in Hrun. clear Hstep.
    destruct (wait_event_settled w f b rest (now s) t o) as (Ht & Hset & Hev);
      [apply Hsub; by left | done |].
    assert (Hcont : ∀ s1 r1,
      await_disabled w rest
        (Driver t (trace s ++ [Ev t (Waited (fut_path f) (fut_data f) o)]))
      = (s1, r1) →
      ∃ evs, trace s1 = trace s ++ evs ∧ now s ≤ now s1 ∧
        Forall (is_wait_of w ((f, b) :: rest) (now s) (now s1)) evs ∧
        (r1 = Ok tt → all_waited w ((f, b) :: rest) evs) ∧
        (∀ e, r1 = Raise e → escaped w ((f, b) :: rest) e)).
    { intros s1 r1 Hrest.
      apply IH in Hrest as (evs & Htr & Hnow & Hall & Hok & Hexc).
      2:{ simpl. intros f0 Hf0. etrans; [apply Hsub; by right | done]. }
      simpl in *.
      exists (Ev t (Waited (fut_path f) (fut_data f) o) :: evs).
      split_and!.
      - rewrite Htr. by rewrite <- app_assoc.
      - lia.
      - constructor; [by apply Hev|].
        eapply Forall_impl; [exact Hall|]. intros ev.
        by apply is_wait_of_tail.
      - intros Hr. apply all_waited_cons; [done | by apply Hok].
      - intros e Hr. by apply escaped_cons, Hexc. }
    destruct o as [|e|]; [by apply Hcont | | by apply Hcont].
    destruct (is_Exception e) eqn:He; [by apply Hcont|].
    injection Hrun as <- <-. simpl.
    exists [Ev t (Waited (fut_path f) (fut_data f) (Raised e))].
    split_and!; [done | done | | done |].
    + constructor; [by apply Hev | done].
    + intros e' [= <-]. apply wait_spec in Hw as [_ [_ Hraised]].
      exists f. split_and!; [by left | done | done].
Qed.

Lemma returned_waits_cons ev evs :
  length (returned_waits (ev :: evs)) =
  ((if is_returned ev then 1 else 0) + length (returned_waits evs))%nat.
Proof.
  unfold returned_waits. rewrite filter_cons.
  destruct (is_returned ev); reflexivity.
Qed.

Lemma count_enabled_spec w futs : ∀ c s s' r,
  (∀ f, f ∈ futs.*1 → fut_submitted f ≤ now s) →
  count_enabled w futs c s = (s', r) →
  ∃ evs,
    trace s' = trace s ++ evs ∧ now s ≤ now s' ∧
    Forall (is_wait_of w futs (now s) (now s')) evs ∧
    (∀ n, r = Ok n →
          all_waited w futs evs ∧
          n = c + Z.of_nat (length (returned_waits evs)) ∧
          length evs = length futs) ∧
    (∀ e, r = Raise e → escaped w futs e).
Proof.
  induction futs as [|[f b] rest IH]; intros c s s' r Hsub Hrun.
  - injection Hrun as <- <-. exists []. rewrite app_nil_r.
    split_and!; [done | lia | done | | done].
    intros n [= <-]. split_and!; [|simpl; lia|done].
    intros f Hf. simpl in Hf. by apply elem_of_nil in Hf.
  - simpl in Hrun. unfold mbind at 1, M_bind at 1 in Hrun.
    destruct (counted_wait_run w f c s) as (t & o & Hw & Hstep).
    rewrite Hstep in Hrun. clear Hstep.
    destruct (wait_event_settled w f b rest (now s) t o) as (Ht & Hset & Hev);
      [apply Hsub; by left | done |].
    assert (Hcont : ∀ c1 s1 r1,
      c1 = c + (if is_returned (Ev t (Waited (fut_path f) (fut_data f) o))
                then 1 else 0) →
      count_enabled w rest c1
        (Driver t (trace s ++ [Ev t (Waited (fut_path f) (fut_data f) o)]))
      = (s1, r1) →
      ∃ evs, trace s1 = trace s ++ evs ∧ now s ≤ now s1 ∧
        Forall (is_wait_of w ((f, b) :: rest) (now s) (now s1)) evs ∧
        (∀ n, r1 = Ok n →
              all_waited w ((f, b) :: rest) evs ∧
              n = c + Z.of_nat (length (returned_waits evs)) ∧
              length evs = length ((f, b) :: rest)) ∧
        (∀ e, r1 = Raise e → escaped w ((f, b) :: rest) e)).
    { intros c1 s1 r1 Hc1 Hrest.
      apply IH in Hrest as (evs & Htr & Hnow & Hall & Hok & Hexc).
      2:{ simpl. intros f0 Hf0. etrans; [apply Hsub; by right | done]. }
      simpl in *.
      exists (Ev t (Waited (fut_path f) (fut_data f) o) :: evs).
      split_and!.
      - rewrite Htr. by rewrite <- app_assoc.
      - lia.
      - constructor; [by apply Hev|].
        eapply Forall_impl; [exact Hall|]. intros ev.
        by apply is_wait_of_tail.
      - intros n Hr. destruct (Hok n Hr) as (Hw2 & Hn & Hlen). split_and!.
        + by apply all_waited_cons.
        + rewrite returned_waits_cons. rewrite Hn, Hc1.
          destruct (is_returned _); lia.
        + simpl. by rewrite Hlen.
      - intros e Hr. by apply escaped_cons, Hexc. }
    destruct o as [|e|].
    + eapply Hcont; [|exact Hrun]. done.
    + destruct (is_Exception e) eqn:He.
      * eapply Hcont; [|exact Hrun]. simpl. lia.
      * injection Hrun as <- <-. simpl.
        exists [Ev t (Waited (fut_path f) (fut_data f) (Raised e))].
        split_and!; [done | done | | done |].
        -- constructor; [by apply Hev | done].
        -- intros e' [= <-]. apply wait_spec in Hw as [_ [_ Hraised]].
           exists f. split_and!; [by left | done | done].
    + eapply Hcont; [|exact Hrun]. simpl. lia.
Qed.

Lemma futures_of_submitted data t buses f :
  f ∈ (futures_of data t buses).*1 → fut_submitted f = t.
Proof.
  unfold futures_of. rewrite <- list_fmap_compose.
  intros (b & -> & _)%list_elem_of_fmap. reflexivity.
Qed.

(** The shape of every run of the coordinator on a non-empty input: the
    phase-1 submissions, the phase-1 waits, and then either the run is over
    with an exception, or the delay, the phase-2 submissions and the
    phase-2 waits follow. *)
Lemma reset_buses_parallel_run w buses d t0 sf r :
  buses ≠ [] →
  reset_buses_parallel w buses d (start t0) = (sf, r) →
  ∃ W1 t1,
    t0 ≤ t1 ∧
    Forall (is_wait_of w (futures_of deauthorize t0 buses) t0 t1) W1 ∧
    ((∃ e, r = Raise e ∧
           trace sf = submits deauthorize t0 buses ++ W1 ∧
           (escaped w (futures_of deauthorize t0 buses) e ∨
            sleep_error d = Some e)) ∨
     (0 ≤ d ≤ SLEEP_MAX ∧
      all_waited w (futures_of deauthorize t0 buses) W1 ∧
      ∃ W2,
        trace sf =
          submits deauthorize t0 buses ++ W1 ++ [Ev (t1 + d) (Slept d)] ++
          submits authorize (t1 + d) buses ++ W2 ∧
        Forall (is_wait_of w (futures_of authorize (t1 + d) buses)
                  (t1 + d) (now sf)) W2 ∧
        (∀ n, r = Ok n →
              all_waited w (futures_of authorize (t1 + d) buses) W2 ∧
              n = Z.of_nat (length (returned_waits W2)) ∧
              length W2 = length buses) ∧
        (∀ e, r = Raise e →
              escaped w (futures_of authorize (t1 + d) buses) e))).
Proof.
  intros Hne Hrun.
  assert (Hbody :
    (disable_futures ← submit_all deauthorize buses ;
     await_disabled w disable_futures ;;
     sleep d ;;
     enable_futures ← submit_all authorize buses ;
     count_enabled w enable_futures 0) (start t0) = (sf, r)).
  { destruct buses; [done | exact Hrun]. }
  clear Hrun. unfold mbind at 1, M_bind at 1 in Hbody.
  rewrite submit_all_run in Hbody. simpl in Hbody.
  unfold mbind at 1, M_bind at 1 in Hbody.
  destruct (await_disabled w (futures_of deauthorize t0 buses)
              (Driver t0 (submits deauthorize t0 buses))) as [s2 r2] eqn:Hawait.
  apply await_disabled_spec in Hawait as (W1 & Htr1 & Hnow1 & Hall1 & Hok1 & Hexc1).
  2:{ intros f Hf. apply futures_of_submitted in Hf. simpl. lia. }
  simpl in Htr1, Hnow1, Hall1.
  exists W1, (now s2). split; [done|]. split; [done|].
  destruct r2 as [[]|e].
  2:{ injection Hbody as <- <-. left. exists e. split_and!; [done | done |].
      left. by apply Hexc1. }
  unfold mbind at 1, M_bind at 1, sleep in Hbody.
  destruct (sleep_error d) as [e|] eqn:Hd.
  { injection Hbody as <- <-. left.
    exists e. split_and!; [done | done | by right]. }
  apply sleep_error_None in Hd.
  unfold mbind at 1, M_bind at 1 in Hbody.
  rewrite submit_all_run in Hbody. simpl in Hbody.
  apply count_enabled_spec in Hbody as (W2 & Htr2 & Hnow2 & Hall2 & Hok2 & Hexc2).
  2:{ intros f Hf. apply futures_of_submitted in Hf. simpl. lia. }
  simpl in Htr2, Hnow2, Hall2.
  right. split; [done|]. split; [by apply Hok1|].
  exists W2. split_and!.
  - rewrite Htr2, Htr1. by rewrite <- !app_assoc.
  - done.
  - intros n Hn. destruct (Hok2 n Hn) as (? & -> & Hlen).
    split_and!; [done | lia |].
    rewrite Hlen. unfold futures_of. by rewrite length_map.
  - done.
Qed.

Lemma elem_of_submits t p data data' t' buses :
  Ev t (Submit p data) ∈ submits data' t' buses ↔
  t = t' ∧ data = data' ∧ ∃ b, b ∈ buses ∧ p = sysfs_path b.
Proof.
  unfold submits. rewrite list_elem_of_fmap. split.
  - intros (b & [= -> -> ->] & Hb). eauto.
  - intros (-> & -> & b & Hb & ->). eauto.
Qed.

Lemma wait_events_only w futs lo hi W ev :
  Forall (is_wait_of w futs lo hi) W → ev ∈ W →
  lo ≤ ev_time ev ≤ hi ∧ ∃ p data o, ev_act ev = Waited p data o.
Proof.
  intros Hall Hin. rewrite Forall_forall in Hall.
  destruct (Hall ev Hin) as (f & o & _ & Hact & Ht & _). eauto.
Qed.

Lemma submit_not_in_waits w futs lo hi W t p data :
  Forall (is_wait_of w futs lo hi) W → Ev t (Submit p data) ∉ W.
Proof.
  intros Hall Hin.
  destruct (wait_events_only _ _ _ _ _ _ Hall Hin) as (_ & ? & ? & ? & Hact).
  discriminate.
Qed.

Lemma reset_buses_parallel_nil w d s : reset_buses_parallel w [] d s = (s, Ok 0).
Proof. reflexivity. Qed.

(** Where a submission found in the trace of a run comes from: the first
    loop, at the start, or the second loop, when the delay has ended and
    every phase-1 future has been waited on. *)
Lemma submit_in_run w buses d t0 t p data :
  Ev t (Submit p data) ∈ trace (reset_buses_parallel w buses d (start t0)).1 →
  (∃ b, b ∈ buses ∧ p = sysfs_path b) ∧
  ((data = deauthorize ∧ t = t0) ∨
   (data = authorize ∧ 0 ≤ d ∧
    Ev t (Slept d) ∈ trace (reset_buses_parallel w buses d (start t0)).1 ∧
    ∃ W1 t1,
      t = t1 + d ∧
      Forall (is_wait_of w (futures_of deauthorize t0 buses) t0 t1) W1 ∧
      all_waited w (futures_of deauthorize t0 buses) W1 ∧
      W1 ⊆ trace (reset_buses_parallel w buses d (start t0)).1)).
Proof.
  destruct (decide (buses = [])) as [->|Hne].
  { rewrite reset_buses_parallel_nil. simpl. by intros ?%elem_of_nil. }
  destruct (reset_buses_parallel w buses d (start t0)) as [sf r] eqn:Hrun.
  apply reset_buses_parallel_run in Hrun as (W1 & t1 & Ht1 & Hall1 & Hcases);
    [|done].
  simpl. intros Hin.
  destruct Hcases
    as [(e & _ & Htr & _) | ([Hd _] & Hw1 & W2 & Htr & Hall2 & _)];
    rewrite Htr in Hin |- *.
  - apply elem_of_app in Hin as [Hin|Hin].
    + apply elem_of_submits in Hin as (-> & -> & Hb). split; [done | by left].
    + by apply (submit_not_in_waits _ _ _ _ _ _ _ _ Hall1) in Hin.
  - rewrite !elem_of_app in Hin.
    destruct Hin as [Hin|[Hin|[Hin|[Hin|Hin]]]].
    + apply elem_of_submits in Hin as (-> & -> & Hb). split; [done | by left].
    + by apply (submit_not_in_waits _ _ _ _ _ _ _ _ Hall1) in Hin.
    + apply list_elem_of_singleton in Hin. discriminate.
    + apply elem_of_submits in Hin as (-> & -> & Hb). split; [done|].
      right. split_and!; [done | done | |].
      * rewrite !elem_of_app. right. right. left.
        by apply list_elem_of_singleton.
      * exists W1, t1. split_and!; [done | done | done |].
        intros ev Hev. rewrite !elem_of_app. right. by left.
    + by apply (submit_not_in_waits _ _ _ _ _ _ _ _ Hall2) in Hin.
Qed.

Lemma futures_of_data data t buses f :
  f ∈ (futures_of data t buses).*1 → fut_data f = data.
Proof.
  unfold futures_of. rewrite <- list_fmap_compose.
  intros (b & -> & _)%list_elem_of_fmap. reflexivity.
Qed.

Lemma enable_returned_submits data t buses :
  filter (λ ev, enable_returned ev) (submits data t buses) = [].
Proof.
  unfold submits. induction buses as [|b rest IH]; [done|].
  simpl. rewrite filter_cons_False; [exact IH | intros H; exact H].
Qed.

Lemma enable_returned_disable_waits w t0 buses lo hi W :
  Forall (is_wait_of w (futures_of deauthorize t0 buses) lo hi) W →
  filter (λ ev, enable_returned ev) W = [].
Proof.
  induction 1 as [|ev W (f & o & Hf & Hact & _) _ IH]; [done|].
  rewrite filter_cons_False; [done|].
  unfold enable_returned. rewrite Hact.
  rewrite (futures_of_data _ _ _ _ Hf). destruct o; intros H; exact H.
Qed.

Lemma enable_returned_enable_waits w t buses lo hi W :
  Forall (is_wait_of w (futures_of authorize t buses) lo hi) W →
  filter (λ ev, enable_returned ev) W = returned_waits W.
Proof.
  unfold returned_waits.
  induction 1 as [|ev W (f & o & Hf & Hact & _) _ IH]; [done|].
  rewrite !filter_cons, IH.
  replace (enable_returned ev) with (is_returned ev); [done|].
  unfold enable_returned, is_returned. rewrite Hact.
  rewrite (futures_of_data _ _ _ _ Hf). by destruct o.
Qed.

(** X15: the counter the coordinator returns is the number of phase-2 waits
    that returned normally; the phase-1 outcomes do not enter it. *)
Lemma success_count_counts_enable_waits w buses d t0 n :
  (reset_buses_parallel w buses d (start t0)).2 = Ok n →
  n = Z.of_nat (length (filter (λ ev, enable_returned ev)
                          (trace (reset_buses_parallel w buses d
                                    (start t0)).1))).
Proof.
  destruct (decide (buses = [])) as [->|Hne].
  { rewrite reset_buses_parallel_nil. simpl. by intros [= <-]. }
  destruct (reset_buses_parallel w buses d (start t0)) as [sf r] eqn:Hrun.
  simpl. intros ->.
  apply reset_buses_parallel_run in Hrun as (W1 & t1 & _ & Hall1 & Hcases);
    [|done].
  destruct Hcases as [(e & He & _) | (_ & _ & W2 & -> & Hall2 & Hok & _)];
    [discriminate|].
  destruct (Hok n eq_refl) as (_ & -> & _).
  rewrite !filter_app, !enable_returned_submits.
  rewrite (enable_returned_disable_waits _ _ _ _ _ _ Hall1).
  rewrite (enable_returned_enable_waits _ _ _ _ _ _ Hall2).
  rewrite filter_cons_False; [by rewrite app_nil_l | intros H; exact H].
Qed.

(** ** The reset coordinator *)

(** Membership of a concrete event in a concrete trace, by evaluation. *)
Ltac in_trace :=
  match goal with
  | |- ?P => apply (@bool_decide_unpack P _); vm_compute; exact I
  end.

(** C1, evaluated where the phase-1 write of bus 1 is refused and every
    other write is accepted (the third end-to-end scenario of the
    specification): the coordinator returns 2, although only bus 3 had
    both of its writes succeed. The single-bus routine [reset_usb_bus]
    reports the same bus 1 as not reset. *)
Theorem C1_disable_failure_still_counted :
  let run :=
    reset_buses_parallel world_disable_denied [bus1; bus3]
      DEFAULT_RESET_DELAY (start 0) in
  run.2 = Ok 2 ∧
  spec_success_count (trace run.1) [bus1; bus3] = 1 ∧
  write_succeeded (trace run.1) (sysfs_path bus1) deauthorize = false ∧
  write_succeeded (trace run.1) (sysfs_path bus1) authorize = true ∧
  (reset_usb_bus world_disable_denied bus1 DEFAULT_RESET_DELAY (start 0)).2
    = Ok false.
Proof. by vm_compute. Qed.

(** C4, as stated, fails: the write submitted for bus 1 is the two
    characters [deauthorize], not the single digit. *)
Lemma C4_counterexample :
  Ev 0 (Submit (control_path 1) deauthorize) ∈
    trace (reset_buses_parallel world_two_buses [bus1]
             DEFAULT_RESET_DELAY (start 0)).1 ∧
  String.length deauthorize = 2%nat ∧
  ¬ single_digit_writes
      (trace (reset_buses_parallel world_two_buses [bus1]
                DEFAULT_RESET_DELAY (start 0)).1).
Proof.
  assert (Hin : Ev 0 (Submit (control_path 1) deauthorize) ∈
    trace (reset_buses_parallel world_two_buses [bus1]
             DEFAULT_RESET_DELAY (start 0)).1).
  { in_trace. }
  split_and!; [done | reflexivity |].
  intros H. by destruct (H _ _ _ Hin).
Qed.

(** C4, amended: every write the coordinator issues goes to the control
    path of one of its buses and consists of one ASCII digit followed by a
    newline and nothing else: [deauthorize] for the phase-1 writes, issued
    at the start, and [authorize] for the phase-2 writes, issued when the
    delay has ended. *)
Theorem C4_writes_are_digit_newline w buses d t0 t p data :
  Ev t (Submit p data) ∈ trace (reset_buses_parallel w buses d (start t0)).1 →
  (∃ b, b ∈ buses ∧ p = sysfs_path b) ∧
  ((data = deauthorize ∧ t = t0) ∨
   (data = authorize ∧
    Ev t (Slept d) ∈ trace (reset_buses_parallel w buses d (start t0)).1)).
Proof.
  intros Hin. apply submit_in_run in Hin as [Hb Hcases].
  split; [done|]. destruct Hcases as [?|(? & _ & ? & _)]; [by left | by right].
Qed.

Lemma C4_writes_are_digit_newline_witness :
  (∃ b, b ∈ [bus1; bus3] ∧ control_path 3 = sysfs_path b) ∧
  ((authorize = deauthorize ∧ 1002 = 0) ∨
   (authorize = authorize ∧
    Ev 1002 (Slept 1000) ∈
      trace (reset_buses_parallel world_two_buses [bus1; bus3] 1000
               (start 0)).1)).
Proof.
  apply (C4_writes_are_digit_newline world_two_buses [bus1; bus3] 1000 0
           1002 (control_path 3) authorize).
  in_trace.
Defined.






(** ** The entry point *)

Lemma main_unfold w reset_delay vendor_id s :
  check_permissions w = true →
  main w reset_delay vendor_id s =
  main_from w (find_elo_buses w (py_or vendor_id ELO_VENDOR_ID))
    (py_or reset_delay DEFAULT_RESET_DELAY) s.
Proof. intros Hp. unfold main. by rewrite Hp. Qed.

Lemma main_from_raise w e delay s :
  main_from w (Raise e) delay s =
  (s, if is_class USBBusResetError e then Ok 1
      else if is_class KeyboardInterrupt e then Ok 130
      else if is_Exception e then Ok 1
      else Raise e).
Proof.
  unfold main_from, try_except, raise.
  destruct (is_class USBBusResetError e); [done|].
  destruct (is_class KeyboardInterrupt e); [done|].
  by destruct (is_Exception e).
Qed.

Lemma main_from_buses w buses delay s :
  buses ≠ [] →
  main_from w (Ok buses) delay s =
  match reset_buses_parallel w buses delay s with
  | (s', Ok n) =>
      (s', Ok (if n =? len buses then 0 else if n >? 0 then 2 else 1))
  | (s', Raise e) =>
      (s', if is_class USBBusResetError e then Ok 1
           else if is_class KeyboardInterrupt e then Ok 130
           else if is_Exception e then Ok 1
           else Raise e)
  end.
Proof.
  intros Hne. destruct buses as [|b rest]; [done|].
  unfold main_from, try_except, mbind, M_bind.
  destruct (reset_buses_parallel w (b :: rest) delay s) as [s' [n|e]].
  - destruct (n =? len (b :: rest)); [done|]. by destruct (n >? 0).
  - destruct (is_class USBBusResetError e); [done|].
    destruct (is_class KeyboardInterrupt e); [done|].
    by destruct (is_Exception e).
Qed.

Lemma returned_waits_length evs :
  (length (returned_waits evs) ≤ length evs)%nat.
Proof. unfold returned_waits. apply length_filter. Qed.

(** The counter the coordinator returns lies between zero and the number
    of buses. *)
Lemma success_count_range w buses d t0 n :
  (reset_buses_parallel w buses d (start t0)).2 = Ok n →
  0 ≤ n ≤ len buses.
Proof.
  destruct (decide (buses = [])) as [->|Hne].
  { rewrite reset_buses_parallel_nil. simpl. intros [= <-]. unfold len.
    simpl. lia. }
  destruct (reset_buses_parallel w buses d (start t0)) as [sf r] eqn:Hrun.
  simpl. intros ->.
  apply reset_buses_parallel_run in Hrun as (W1 & t1 & _ & _ & Hcases);
    [|done].
  destruct Hcases as [(e & He & _) | (_ & _ & W2 & _ & _ & Hok & _)];
    [discriminate|].
  destruct (Hok n eq_refl) as (_ & -> & Hlen).
  pose proof (returned_waits_length W2). unfold len. lia.
Qed.

(** The exit code of [main]'s [try] statement as a function of what the
    locator and the coordinator hand back: 0 when no bus was found, and,
    for one or more buses with [n] counted successes, 0 when [n] is the
    number of buses, 2 when [n] lies strictly between zero and that number,
    1 when [n] is zero; 1 on any [Exception], 130 on [KeyboardInterrupt].
    Once the privilege check has passed, [main] is this statement run on
    the outcome of the locator. *)
Lemma main_from_exit_code_table w delay t0 :
  (main_from w (Ok []) delay (start t0)).2 = Ok 0 ∧
  (∀ buses n,
     buses ≠ [] →
     (reset_buses_parallel w buses delay (start t0)).2 = Ok n →
     0 ≤ n ≤ len buses ∧
     (n = len buses → (main_from w (Ok buses) delay (start t0)).2 = Ok 0) ∧
     (0 < n < len buses →
      (main_from w (Ok buses) delay (start t0)).2 = Ok 2) ∧
     (n = 0 → (main_from w (Ok buses) delay (start t0)).2 = Ok 1)) ∧
  (∀ e, is_class USBBusResetError e = true →
        (main_from w (Raise e) delay (start t0)).2 = Ok 1) ∧
  (∀ e, is_Exception e = true →
        (main_from w (Raise e) delay (start t0)).2 = Ok 1) ∧
  (∀ e, is_class KeyboardInterrupt e = true →
        (main_from w (Raise e) delay (start t0)).2 = Ok 130) ∧
  (∀ buses e,
     buses ≠ [] →
     (reset_buses_parallel w buses delay (start t0)).2 = Raise e →
     (is_Exception e = true →
      (main_from w (Ok buses) delay (start t0)).2 = Ok 1) ∧
     (is_class KeyboardInterrupt e = true →
      (main_from w (Ok buses) delay (start t0)).2 = Ok 130)) ∧
  (∀ reset_delay vendor_id,
     check_permissions w = true →
     main w reset_delay vendor_id (start t0) =
     main_from w (find_elo_buses w (py_or vendor_id ELO_VENDOR_ID))
       (py_or reset_delay DEFAULT_RESET_DELAY) (start t0)).
Proof.
  split_and!.
  - reflexivity.
  - intros buses n Hne Hn.
    pose proof (success_count_range _ _ _ _ _ Hn) as Hrange.
    rewrite main_from_buses by done.
    destruct (reset_buses_parallel w buses delay (start t0)) as [s' r].
    simpl in Hn. subst r. simpl.
    assert (0 < len buses).
    { unfold len. destruct buses; [done | simpl; lia]. }
    split_and!; [lia | lia | | |].
    + intros ->. by rewrite Z.eqb_refl.
    + intros Hlt. destruct (Z.eqb_spec n (len buses)); [lia|].
      destruct (Z.gtb_spec n 0); [done | lia].
    + intros ->. destruct (Z.eqb_spec 0 (len buses)); [lia | done].
  - intros [c m] He. rewrite main_from_raise. by destruct c.
  - intros [c m] He. rewrite main_from_raise. by destruct c.
  - intros [c m] He. rewrite main_from_raise. by destruct c.
  - intros buses [c m] Hne He. rewrite main_from_buses by done.
    destruct (reset_buses_parallel w buses delay (start t0)) as [s' r].
    simpl in He. subst r. split; intros Hc; by destruct c.
  - intros. by apply main_unfold.
Qed.




Lemma py_set_cases xs :
  (xs = [] ∧ py_set xs = Ok []) ∨
  (xs ≠ [] ∧
   py_set xs = Raise (Exn TypeError "unhashable type: 'USBBusInfo'")).
Proof. destruct xs; [by left | by right]. Qed.





(** C2: [USBBusInfo] is a bare dataclass, so its [__hash__] is [None].
    A discovery pass that accepts at least one bus therefore ends in a
    [TypeError] raised by the construction of the result set; it is not a
    [USBBusResetError], and [main] reports it as an unexpected error (exit
    code 1) without touching any bus. A pass that accepts no bus returns
    the empty set, and this is the only way the locator returns
    normally. *)
Theorem C2_result_set_raises_TypeError w vendor_id buses :
  accepted_buses w vendor_id = Ok buses →
  USBBusInfo_hash = HashNone ∧
  (buses = ∅ → find_elo_buses w vendor_id = Ok []) ∧
  (buses ≠ ∅ →
   find_elo_buses w vendor_id =
     Raise (Exn TypeError "unhashable type: 'USBBusInfo'") ∧
   is_class USBBusResetError
     (Exn TypeError "unhashable type: 'USBBusInfo'") = false ∧
   ∀ reset_delay vid s,
     check_permissions w = true →
     py_or vid ELO_VENDOR_ID = vendor_id →
     main w reset_delay vid s = (s, Ok 1)) ∧
  (∀ found, find_elo_buses w vendor_id = Ok found → found = [] ∧ buses = ∅).
Proof.
  intros Hacc.
  assert (Hfind : find_elo_buses w vendor_id = py_set (dict_values buses)).
  { unfold find_elo_buses. by rewrite Hacc. }
  split_and!.
  - reflexivity.
  - intros ->. by rewrite Hfind.
  - intros Hne.
    assert (Hraise : find_elo_buses w vendor_id =
              Raise (Exn TypeError "unhashable type: 'USBBusInfo'")).
    { rewrite Hfind. destruct (py_set_cases (dict_values buses))
        as [[Hnil _]|[_ Hs]]; [|done].
      by apply dict_values_nil in Hnil. }
    split_and!; [done | done |].
    intros reset_delay vid s Hp Hvid.
    rewrite main_unfold by done. rewrite Hvid, Hraise.
    by rewrite main_from_raise.
  - intros found Hok. rewrite Hfind in Hok.
    destruct (py_set_cases (dict_values buses)) as [[Hnil Hs]|[_ Hs]];
      rewrite Hs in Hok; [|done].
    injection Hok as <-. split; [done|]. by apply dict_values_nil.
Qed.

Lemma C2_result_set_raises_TypeError_witness :
  find_elo_buses world_two_buses ELO_VENDOR_ID =
    Raise (Exn TypeError "unhashable type: 'USBBusInfo'") ∧
  main world_two_buses None None (start 0) = (start 0, Ok 1).
Proof.
  destruct (C2_result_set_raises_TypeError world_two_buses ELO_VENDOR_ID
              _ eq_refl) as (_ & _ & H & _).
  destruct H as (H1 & _ & H2).
  - intros Hempty. apply (f_equal (λ m : gmap Z USBBusInfo, m !! 1)) in Hempty.
    vm_compute in Hempty. discriminate.
  - split; [exact H1|]. apply H2; reflexivity.
Defined.

(** ** Resetting one bus: further properties *)








(** ** The bus locator: further properties *)

Lemma scan_devices_counts w :
  ∀ devices i (buses : gmap Z USBBusInfo) k x,
    (scan_devices w i devices buses).1 !! k = Some x →
    match buses !! k with
    | Some x0 =>
        device_count x0 ≤ device_count x ≤
        device_count x0 + devices_on k devices
    | None => 1 ≤ device_count x ≤ devices_on k devices
    end.
Proof.
  induction devices as [|d rest IH]; intros i buses k x.
  - simpl. intros ->. unfold devices_on. simpl. lia.
  - rewrite devices_on_cons. pose proof (devices_on_nonneg k rest) as Hn.
    simpl. destruct (buses !! bus d) as [info|] eqn:Hd.
    + intros Hk. apply IH in Hk.
      destruct (decide (bus d = k)) as [Heq|Hne].
      * rewrite Heq in *. rewrite lookup_insert_eq in Hk. rewrite Hd.
        simpl in Hk. lia.
      * rewrite lookup_insert_ne in Hk by done.
        destruct (buses !! k); lia.
    + simpl. destruct (path_exists w i (control_path (bus d))); simpl;
        intros Hk; apply IH in Hk.
      * destruct (decide (bus d = k)) as [Heq|Hne].
        -- rewrite Heq in *. rewrite lookup_insert_eq in Hk. rewrite Hd.
           simpl in Hk. lia.
        -- rewrite lookup_insert_ne in Hk by done.
           destruct (buses !! k); lia.
      * destruct (decide (bus d = k)); destruct (buses !! k); lia.
Qed.

Lemma scan_devices_sighted w :
  ∀ devices i (buses : gmap Z USBBusInfo) k x,
    (scan_devices w i devices buses).1 !! k = Some x →
    buses !! k = None →
    ∃ j d, devices !! j = Some d ∧ bus d = k ∧
           path_exists w (i + j) (control_path k) = true.
Proof.
  induction devices as [|d rest IH]; intros i buses k x.
  - simpl. congruence.
  - simpl. intros Hk Hnone.
    assert (Hshift : (∃ j d', rest !! j = Some d' ∧ bus d' = k ∧
                        path_exists w (S i + j) (control_path k) = true) →
                     ∃ j d', (d :: rest) !! j = Some d' ∧ bus d' = k ∧
                        path_exists w (i + j) (control_path k) = true).
    { intros (j & d' & Hj & Hb & Hp). exists (S j), d'.
      split_and!; [done | done |].
      by replace (i + S j)%nat with (S i + j)%nat by lia. }
    destruct (buses !! bus d) as [info|] eqn:Hd.
    + apply Hshift. eapply IH; [exact Hk|].
      rewrite lookup_insert_ne; [done | congruence].
    + simpl in Hk.
      destruct (path_exists w i (control_path (bus d))) eqn:Hp; simpl in Hk.
      * destruct (decide (bus d = k)) as [Heq|Hne].
        -- exists 0%nat, d. rewrite Nat.add_0_r, <- Heq. done.
        -- apply Hshift. eapply IH; [exact Hk|].
           by rewrite lookup_insert_ne.
      * apply Hshift. by eapply IH.
Qed.

(** X4: every descriptor the locator builds sits under its own bus number,
    holds the control path of that bus, counts at least one and at most all
    of the matching devices on that bus, and belongs to a bus whose control
    path was found present at one of its sightings. *)
Theorem locator_descriptor_invariant w devices k x :
  (scan_devices w 0 devices ∅).1 !! k = Some x →
  bus_number x = k ∧
  sysfs_path x = control_path k ∧
  1 ≤ device_count x ≤ devices_on k devices ∧
  ∃ j d, devices !! j = Some d ∧ bus d = k ∧
         path_exists w j (control_path k) = true.
Proof.
  intros Hk.
  destruct (scan_devices_keys w devices 0 ∅) with (k := k) (x := x)
    as [Hbn Hpath]; [intros k' x'; by rewrite lookup_empty | done |].
  pose proof (scan_devices_counts w devices 0 ∅ k x Hk) as Hc.
  rewrite lookup_empty in Hc.
  destruct (scan_devices_sighted w devices 0 ∅ k x Hk)
    as (j & d & Hj & Hb & Hp); [apply lookup_empty|].
  split_and!; [done | done | lia | lia | by exists j, d].
Qed.

Lemma locator_descriptor_invariant_witness :
  let devices :=
    [mkDevice ELO_VENDOR_ID 1; mkDevice ELO_VENDOR_ID 3;
     mkDevice ELO_VENDOR_ID 1] in
  bus_number bus1 = 1 ∧
  sysfs_path bus1 = control_path 1 ∧
  1 ≤ device_count bus1 ≤ devices_on 1 devices ∧
  ∃ j d, devices !! j = Some d ∧ bus d = 1 ∧
         path_exists world_two_buses j (control_path 1) = true.
Proof.
  apply (locator_descriptor_invariant world_two_buses
           [mkDevice ELO_VENDOR_ID 1; mkDevice ELO_VENDOR_ID 3;
            mkDevice ELO_VENDOR_ID 1] 1 bus1).
  by vm_compute.
Defined.

(** X5: two descriptors built in one pass for different bus numbers never
    share a control path. *)
Theorem locator_control_paths_distinct w devices k1 k2 x1 x2 :
  (scan_devices w 0 devices ∅).1 !! k1 = Some x1 →
  (scan_devices w 0 devices ∅).1 !! k2 = Some x2 →
  k1 ≠ k2 →
  sysfs_path x1 ≠ sysfs_path x2.
Proof.
  intros H1 H2 Hne Heq.
  assert (Hkeys : ∀ k x, (scan_devices w 0 devices ∅).1 !! k = Some x →
            sysfs_path x = control_path k).
  { intros k x Hk.
    eapply (scan_devices_keys w devices 0 ∅); [|exact Hk].
    intros k' x'. by rewrite lookup_empty. }
  rewrite (Hkeys _ _ H1), (Hkeys _ _ H2) in Heq.
  by apply (inj control_path) in Heq.
Qed.

Lemma locator_control_paths_distinct_witness :
  sysfs_path bus1 ≠ sysfs_path bus3.
Proof.
  apply (locator_control_paths_distinct world_two_buses
           [mkDevice ELO_VENDOR_ID 1; mkDevice ELO_VENDOR_ID 3;
            mkDevice ELO_VENDOR_ID 1] 1 3 bus1 bus3).
  - by vm_compute.
  - by vm_compute.
  - lia.
Defined.

(** X6: on a host whose sysfs does not change during the pass, the
    dictionary of the locator holds, for every bus number, one descriptor
    with the number of matching devices on that bus as its count if the bus
    was sighted and its control path is present, and nothing otherwise. *)
Theorem locator_dictionary_on_static_sysfs w vendor_id devices present :
  usb_devices w = Ok devices →
  (∀ i p, path_exists w i p = present p) →
  ∃ buses,
    accepted_buses w vendor_id = Ok buses ∧
    ∀ b,
      buses !! b =
        if present (control_path b) &&
           (0 <? devices_on b (filter (λ d, idVendor d = vendor_id) devices))
        then Some (mkBus b
                     (devices_on b
                        (filter (λ d, idVendor d = vendor_id) devices))
                     (control_path b))
        else None.
Proof.
  intros Hd Hstatic. unfold accepted_buses, usb_core_find. rewrite Hd.
  eexists. split; [reflexivity|]. intros b.
  rewrite (scan_devices_static _ present) by done.
  by rewrite lookup_empty.
Qed.

Lemma locator_dictionary_on_static_sysfs_witness :
  ∃ buses,
    accepted_buses world_two_buses ELO_VENDOR_ID = Ok buses ∧
    ∀ b,
      buses !! b =
        if true &&
           (0 <? devices_on b
                   (filter (λ d, idVendor d = ELO_VENDOR_ID)
                      [mkDevice ELO_VENDOR_ID 1; mkDevice ELO_VENDOR_ID 3;
                       mkDevice ELO_VENDOR_ID 1]))
        then Some (mkBus b
                     (devices_on b
                        (filter (λ d, idVendor d = ELO_VENDOR_ID)
                           [mkDevice ELO_VENDOR_ID 1;
                            mkDevice ELO_VENDOR_ID 3;
                            mkDevice ELO_VENDOR_ID 1]))
                     (control_path b))
        else None.
Proof.
  apply (locator_dictionary_on_static_sysfs world_two_buses ELO_VENDOR_ID
           _ (λ _, true)).
  - reflexivity.
  - intros i p. reflexivity.
Defined.

Lemma scan_devices_checks_static w present :
  (∀ i p, path_exists w i p = present p) →
  ∀ devices i (buses : gmap Z USBBusInfo) b,
    Z.of_nat (times_checked (control_path b)
                (scan_devices w i devices buses).2) =
    match buses !! b with
    | Some _ => 0
    | None =>
        if present (control_path b)
        then (if 0 <? devices_on b devices then 1 else 0)
        else devices_on b devices
    end.
Proof.
  intros Hstatic. induction devices as [|d rest IH]; intros i buses b.
  - simpl. unfold devices_on. simpl.
    destruct (buses !! b); [done|]. by destruct (present _).
  - rewrite devices_on_cons. pose proof (devices_on_nonneg b rest) as Hn.
    simpl. destruct (buses !! bus d) as [info|] eqn:Hd.
    + rewrite IH. destruct (decide (bus d = b)) as [Heq|Hne].
      * rewrite Heq in *. by rewrite lookup_insert_eq, Hd.
      * rewrite lookup_insert_ne by done. by destruct (buses !! b).
    + simpl. rewrite times_checked_cons, Hstatic, Nat2Z.inj_add.
      destruct (decide (bus d = b)) as [Heq|Hne].
      * rewrite Heq in *. rewrite decide_True by done. rewrite Hd.
        destruct (present (control_path b)) eqn:Hp; simpl; rewrite IH.
        -- rewrite lookup_insert_eq.
           replace (0 <? 1 + devices_on b rest) with true
             by (symmetry; apply Z.ltb_lt; lia).
           done.
        -- rewrite Hd, Hp. lia.
      * rewrite decide_False
          by (intros H; by apply (inj control_path) in H).
        destruct (present (control_path (bus d))); simpl; rewrite IH.
        -- rewrite lookup_insert_ne by done. by destruct (buses !! b).
        -- by destruct (buses !! b).
Qed.

(** X7: on a host whose sysfs does not change during the pass, the
    locator asks once whether the control path of a sighted bus exists when
    the path is present, and once per matching device on the bus when the
    path is absent. *)
Theorem locator_existence_checks_on_static_sysfs w devices present b :
  (∀ i p, path_exists w i p = present p) →
  Z.of_nat (times_checked (control_path b) (scan_devices w 0 devices ∅).2) =
  if present (control_path b)
  then (if 0 <? devices_on b devices then 1 else 0)
  else devices_on b devices.
Proof.
  intros Hstatic. rewrite (scan_devices_checks_static w present Hstatic).
  by rewrite lookup_empty.
Qed.

Lemma locator_existence_checks_on_static_sysfs_witness :
  Z.of_nat (times_checked (control_path 1)
              (scan_devices world_two_buses 0
                 [mkDevice ELO_VENDOR_ID 1; mkDevice ELO_VENDOR_ID 3;
                  mkDevice ELO_VENDOR_ID 1] ∅).2) =
  if true
  then (if 0 <? devices_on 1
                  [mkDevice ELO_VENDOR_ID 1; mkDevice ELO_VENDOR_ID 3;
                   mkDevice ELO_VENDOR_ID 1] then 1 else 0)
  else devices_on 1
         [mkDevice ELO_VENDOR_ID 1; mkDevice ELO_VENDOR_ID 3;
          mkDevice ELO_VENDOR_ID 1].
Proof.
  apply (locator_existence_checks_on_static_sysfs world_two_buses
           [mkDevice ELO_VENDOR_ID 1; mkDevice ELO_VENDOR_ID 3;
            mkDevice ELO_VENDOR_ID 1] (λ _, true) 1).
  intros i p. reflexivity.
Defined.

(** ** The reset coordinator: further properties *)

(** [reset_buses_parallel] on a non-empty input, step by step. *)
Lemma reset_buses_parallel_steps w buses d t0 :
  buses ≠ [] →
  reset_buses_parallel w buses d (start t0) =
  match await_disabled w (futures_of deauthorize t0 buses)
          (Driver t0 (submits deauthorize t0 buses)) with
  | (s2, Raise e) => (s2, Raise e)
  | (s2, Ok _) =>
      match sleep_error d with
      | Some e => (s2, Raise e)
      | None =>
          count_enabled w (futures_of authorize (now s2 + d) buses) 0
            (Driver (now s2 + d)
               ((trace s2 ++ [Ev (now s2 + d) (Slept d)]) ++
                submits authorize (now s2 + d) buses))
      end
  end.
Proof.
  intros Hne.
  transitivity
    ((disable_futures ← submit_all deauthorize buses ;
      await_disabled w disable_futures ;;
      sleep d ;;
      enable_futures ← submit_all authorize buses ;
      count_enabled w enable_futures 0) (start t0)).
  { by destruct buses. }
  unfold mbind at 1, M_bind at 1. rewrite submit_all_run. simpl.
  unfold mbind at 1, M_bind at 1.
  destruct (await_disabled w (futures_of deauthorize t0 buses)
              (Driver t0 (submits deauthorize t0 buses))) as [s2 [[]|e]];
    [|done].
  unfold mbind at 1, M_bind at 1, sleep.
  destruct (sleep_error d); [done|].
  unfold mbind at 1, M_bind at 1. by rewrite submit_all_run.
Qed.

Lemma wait_within_timeout w f t t' o :
  wait w f RESULT_TIMEOUT t = (t', o) → t ≤ t' ≤ t + RESULT_TIMEOUT.
Proof.
  unfold wait, RESULT_TIMEOUT.
  destruct (Z.leb_spec (done_at w f) (t + 1000)); intros [= <- <-]; lia.
Qed.

Lemma await_disabled_clock w futs : ∀ s s' r,
  await_disabled w futs s = (s', r) →
  now s' ≤ now s + Z.of_nat (length futs) * RESULT_TIMEOUT.
Proof.
  induction futs as [|[f b] rest IH]; intros s s' r Hrun.
  - injection Hrun as <- <-. simpl. lia.
  - simpl in Hrun. unfold mbind, M_bind in Hrun.
    destruct (guarded_wait_run w f s) as (t & o & Hw & Hstep).
    rewrite Hstep in Hrun. clear Hstep.
    apply wait_within_timeout in Hw.
    assert (Hlen : Z.of_nat (length ((f, b) :: rest)) =
                   1 + Z.of_nat (length rest)) by (simpl; lia).
    rewrite Hlen. unfold RESULT_TIMEOUT in *.
    assert (Hcont : ∀ s1 r1,
      await_disabled w rest
        (Driver t (trace s ++ [Ev t (Waited (fut_path f) (fut_data f) o)]))
      = (s1, r1) → now s1 ≤ now s + (1 + Z.of_nat (length rest)) * 1000).
    { intros s1 r1 Hrest. apply IH in Hrest. simpl in Hrest. lia. }
    destruct o as [|e|]; [by eapply Hcont | | by eapply Hcont].
    destruct (is_Exception e); [by eapply Hcont|].
    injection Hrun as <- <-. simpl. lia.
Qed.

Lemma count_enabled_clock w futs : ∀ c s s' r,
  count_enabled w futs c s = (s', r) →
  now s' ≤ now s + Z.of_nat (length futs) * RESULT_TIMEOUT.
Proof.
  induction futs as [|[f b] rest IH]; intros c s s' r Hrun.
  - injection Hrun as <- <-. simpl. lia.
  - simpl in Hrun. unfold mbind at 1, M_bind at 1 in Hrun.
    destruct (counted_wait_run w f c s) as (t & o & Hw & Hstep).
    rewrite Hstep in Hrun. clear Hstep.
    apply wait_within_timeout in Hw.
    assert (Hlen : Z.of_nat (length ((f, b) :: rest)) =
                   1 + Z.of_nat (length rest)) by (simpl; lia).
    rewrite Hlen. unfold RESULT_TIMEOUT in *.
    assert (Hcont : ∀ c1 s1 r1,
      count_enabled w rest c1
        (Driver t (trace s ++ [Ev t (Waited (fut_path f) (fut_data f) o)]))
      = (s1, r1) → now s1 ≤ now s + (1 + Z.of_nat (length rest)) * 1000).
    { intros c1 s1 r1 Hrest. apply IH in Hrest. simpl in Hrest. lia. }
    destruct o as [|e|]; [by eapply Hcont | | by eapply Hcont].
    destruct (is_Exception e); [by eapply Hcont|].
    injection Hrun as <- <-. simpl. lia.
Qed.

Lemma futures_of_length data t buses :
  length (futures_of data t buses) = length buses.
Proof. unfold futures_of. by rewrite length_map. Qed.

Lemma elem_of_futures_of data t buses f :
  f ∈ (futures_of data t buses).*1 ↔
  ∃ b, b ∈ buses ∧ f = mkFuture (sysfs_path b) data t.
Proof.
  unfold futures_of. rewrite <- list_fmap_compose, list_elem_of_fmap.
  split; intros (b & H1 & H2); exists b; done.
Qed.

Lemma count_buses_cons P b buses :
  count_buses P (b :: buses) = (if P b then 1 else 0) + count_buses P buses.
Proof.
  unfold count_buses. rewrite filter_cons.
  destruct (P b); simpl length; lia.
Qed.


(** The counter of the second loop lies between the number of enable
    writes that succeed within the time of a wait and the number of enable
    writes that succeed at all. *)
Lemma count_enabled_bounds w t : ∀ buses c s s' n,
  t ≤ now s →
  count_enabled w (futures_of authorize t buses) c s = (s', Ok n) →
  c + count_buses (write_prompt w authorize) buses ≤ n ∧
  n ≤ c + count_buses (write_ok w authorize) buses.
Proof.
  induction buses as [|b rest IH]; intros c s s' n Ht Hrun.
  - injection Hrun as <- <-. unfold count_buses. simpl. lia.
  - rewrite !count_buses_cons.
    simpl in Hrun. unfold mbind at 1, M_bind at 1 in Hrun.
    destruct (counted_wait_run w (mkFuture (sysfs_path b) authorize t) c s)
      as (t' & o & Hw & Hstep).
    rewrite Hstep in Hrun. clear Hstep.
    pose proof (wait_within_timeout _ _ _ _ _ Hw) as Hclock.
    apply wait_spec in Hw as [_ Ho].
    unfold write_prompt, write_ok, done_at in *. simpl in *.
    destruct (raised (write_text w (sysfs_path b) authorize)) as [e0|]
      eqn:Hraised.
    + rewrite bool_decide_eq_false_2 by done. simpl.
      destruct o as [|e|].
      * by destruct Ho.
      * destruct (is_Exception e); [|done].
        apply IH in Hrun; [lia | simpl; lia].
      * apply IH in Hrun; [lia | simpl; lia].
    + rewrite bool_decide_eq_true_2 by done. simpl.
      destruct o as [|e|].
      * apply IH in Hrun; [|simpl; lia].
        destruct (_ <=? _); lia.
      * by destruct Ho.
      * apply IH in Hrun; [|simpl; lia].
        destruct (Z.leb_spec (latency (write_text w (sysfs_path b) authorize))
                    RESULT_TIMEOUT); [|lia].
        unfold RESULT_TIMEOUT in *. lia.
Qed.


Lemma disable_waits_not_enable w t0 buses lo hi W ev :
  Forall (is_wait_of w (futures_of deauthorize t0 buses) lo hi) W →
  ev ∈ W → is_enable_write ev = false.
Proof.
  intros Hall Hin.
  destruct (wait_events_only _ _ _ _ _ _ Hall Hin) as (_ & p & data & o & Hact).
  unfold is_enable_write. by rewrite Hact.
Qed.

(** The first loop ends normally when no disable write raises outside
    [Exception]. *)
Lemma await_disabled_ok w t0 buses s s' r :
  (∀ b e, b ∈ buses →
          raised (write_text w (sysfs_path b) deauthorize) = Some e →
          is_Exception e = true) →
  (∀ f, f ∈ (futures_of deauthorize t0 buses).*1 →
        fut_submitted f ≤ now s) →
  await_disabled w (futures_of deauthorize t0 buses) s = (s', r) →
  r = Ok tt.
Proof.
  intros Hexc Hsub Hrun.
  apply await_disabled_spec in Hrun as (_ & _ & _ & _ & _ & Hesc); [|done].
  destruct r as [[]|e]; [done|].
  destruct (Hesc e eq_refl) as (f & Hf & Hraised & He).
  apply elem_of_futures_of in Hf as (b & Hb & ->). simpl in Hraised.
  rewrite (Hexc b e Hb Hraised) in He. done.
Qed.

(** X8: whatever the writes do and whatever the delay is, the coordinator
    submits the disable write of every bus at the start; its enable writes
    are all or nothing: if one bus gets its enable write submitted, every
    bus does. A run that ends before the second phase leaves every bus
    without an enable write. *)
Theorem coordinator_disable_all_enable_all_or_none w buses d t0 :
  let tr := trace (reset_buses_parallel w buses d (start t0)).1 in
  (∀ b, b ∈ buses → Ev t0 (Submit (sysfs_path b) deauthorize) ∈ tr) ∧
  ((∃ t p, Ev t (Submit p authorize) ∈ tr) →
   ∀ b, b ∈ buses → ∃ t, Ev t (Submit (sysfs_path b) authorize) ∈ tr).
Proof.
  simpl. destruct (decide (buses = [])) as [->|Hne].
  { split; [intros b Hb | intros _ b Hb]; by apply elem_of_nil in Hb. }
  destruct (reset_buses_parallel w buses d (start t0)) as [sf r] eqn:Hrun.
  apply reset_buses_parallel_run in Hrun as (W1 & t1 & Ht1 & Hall1 & Hcases);
    [|done].
  simpl.
  destruct Hcases as [(e & _ & -> & _) | (_ & _ & W2 & -> & Hall2 & _)].
  - split.
    + intros b Hb. rewrite elem_of_app. left. apply elem_of_submits. eauto.
    + intros (t & p & Hin). exfalso.
      apply elem_of_app in Hin as [Hin|Hin].
      * by apply elem_of_submits in Hin as (_ & ? & _).
      * by apply (submit_not_in_waits _ _ _ _ _ _ _ _ Hall1) in Hin.
  - split.
    + intros b Hb. rewrite elem_of_app. left. apply elem_of_submits. eauto.
    + intros _ b Hb. exists (t1 + d). rewrite !elem_of_app.
      do 3 right. left. apply elem_of_submits. eauto.
Qed.

Lemma coordinator_disable_all_enable_all_or_none_witness :
  ∃ t, Ev t (Submit (sysfs_path bus1) authorize) ∈
         trace (reset_buses_parallel world_slow_disable [bus1; bus3] 1000
                  (start 0)).1.
Proof.
  destruct (coordinator_disable_all_enable_all_or_none world_slow_disable
              [bus1; bus3] 1000 0) as [_ H].
  apply H.
  - exists 2000, (control_path 3). in_trace.
  - in_trace.
Defined.

(** X9: with a negative delay (one [time.sleep] can convert, so not below
    [- SLEEP_MAX]) and one or more buses, the coordinator submits every
    disable write, waits for them, and then ends with the [ValueError] of
    [time.sleep]: no enable write is ever submitted (unless a disable wait
    already raised outside [Exception]), and [main]'s [try] statement turns
    the error into exit code 1. *)
Theorem coordinator_negative_delay w buses d t0 :
  - SLEEP_MAX ≤ d < 0 →
  buses ≠ [] →
  (∀ b e, b ∈ buses →
          raised (write_text w (sysfs_path b) deauthorize) = Some e →
          is_Exception e = true) →
  let run := reset_buses_parallel w buses d (start t0) in
  run.2 = Raise negative_sleep ∧
  (∀ b, b ∈ buses → Ev t0 (Submit (sysfs_path b) deauthorize) ∈ trace run.1) ∧
  (∀ ev, ev ∈ trace run.1 → is_enable_write ev = false) ∧
  (main_from w (Ok buses) d (start t0)).2 = Ok 1.
Proof.
  intros Hd Hne Hexc. simpl.
  rewrite main_from_buses by done.
  rewrite reset_buses_parallel_steps by done.
  destruct (await_disabled w (futures_of deauthorize t0 buses)
              (Driver t0 (submits deauthorize t0 buses))) as [s2 r2] eqn:Hrun.
  assert (r2 = Ok tt) as ->.
  { eapply await_disabled_ok; [exact Hexc | | exact Hrun].
    intros f Hf. apply futures_of_submitted in Hf. simpl. lia. }
  apply await_disabled_spec in Hrun as (W1 & Htr & _ & Hall1 & _).
  2:{ intros f Hf. apply futures_of_submitted in Hf. simpl. lia. }
  simpl in Htr.
  rewrite (sleep_error_negative d Hd).
  simpl. rewrite Htr. split_and!; [done | | | done].
  - intros b Hb. rewrite elem_of_app. left. apply elem_of_submits. eauto.
  - intros ev [Hin|Hin]%elem_of_app.
    + unfold submits in Hin. apply list_elem_of_fmap in Hin as (b & -> & _).
      done.
    + by eapply disable_waits_not_enable.
Qed.

Lemma coordinator_negative_delay_witness :
  let run := reset_buses_parallel world_two_buses [bus1; bus3] (-1) (start 0) in
  run.2 = Raise negative_sleep ∧
  (∀ b, b ∈ [bus1; bus3] →
        Ev 0 (Submit (sysfs_path b) deauthorize) ∈ trace run.1) ∧
  (∀ ev, ev ∈ trace run.1 → is_enable_write ev = false) ∧
  (main_from world_two_buses (Ok [bus1; bus3]) (-1) (start 0)).2 = Ok 1.
Proof.
  apply (coordinator_negative_delay world_two_buses [bus1; bus3] (-1) 0).
  - unfold SLEEP_MAX. lia.
  - discriminate.
  - intros b e Hb. discriminate.
Defined.

(** X10: when the counter is returned, it lies between the number of buses
    whose enable write succeeds within the one-second wait and the number
    of buses whose enable write succeeds at all: a prompt success is always
    counted, a failed enable write never is. *)
Theorem coordinator_count_bounds w buses d t0 n :
  (reset_buses_parallel w buses d (start t0)).2 = Ok n →
  count_buses (write_prompt w authorize) buses ≤ n ∧
  n ≤ count_buses (write_ok w authorize) buses.
Proof.
  destruct (decide (buses = [])) as [->|Hne].
  { rewrite reset_buses_parallel_nil. simpl. intros [= <-].
    unfold count_buses. simpl. lia. }
  rewrite reset_buses_parallel_steps by done.
  destruct (await_disabled w (futures_of deauthorize t0 buses)
              (Driver t0 (submits deauthorize t0 buses))) as [s2 [[]|e]];
    [|done].
  destruct (sleep_error d); [done|].
  destruct (count_enabled _ _ _ _) as [sf r] eqn:Hcount. simpl. intros ->.
  apply count_enabled_bounds in Hcount; [lia | simpl; lia].
Qed.

Lemma coordinator_count_bounds_witness :
  count_buses (write_prompt world_disable_denied authorize) [bus1; bus3] ≤ 2 ∧
  2 ≤ count_buses (write_ok world_disable_denied authorize) [bus1; bus3].
Proof.
  apply (coordinator_count_bounds world_disable_denied [bus1; bus3] 1000 0 2).
  reflexivity.
Defined.



(** X12: every wait of the coordinator is bounded by its one-second
    timeout, so every call the driver thread makes in a run over [N] buses
    started at [t0] happens between [t0] and [t0] plus the delay plus [2 N]
    seconds, however long the writes themselves take. *)
Theorem coordinator_wait_budget w buses d t0 ev :
  ev ∈ trace (reset_buses_parallel w buses d (start t0)).1 →
  t0 ≤ ev_time ev ≤ t0 + Z.max 0 d + 2 * len buses * RESULT_TIMEOUT.
Proof.
  destruct (decide (buses = [])) as [->|Hne].
  { rewrite reset_buses_parallel_nil. simpl. by intros ?%elem_of_nil. }
  rewrite reset_buses_parallel_steps by done.
  destruct (await_disabled w (futures_of deauthorize t0 buses)
              (Driver t0 (submits deauthorize t0 buses))) as [s2 r2] eqn:Hrun.
  pose proof (await_disabled_clock _ _ _ _ _ Hrun) as Hclock1.
  rewrite futures_of_length in Hclock1. simpl in Hclock1.
  apply await_disabled_spec in Hrun as (W1 & Htr & Hnow & Hall1 & _).
  2:{ intros f Hf. apply futures_of_submitted in Hf. simpl. lia. }
  simpl in Htr, Hnow, Hall1.
  assert (Hlen : 0 ≤ len buses) by (unfold len; lia).
  fold (len buses) in Hclock1. unfold RESULT_TIMEOUT in *.
  assert (Hfirst : ∀ ev', ev' ∈ trace s2 →
            t0 ≤ ev_time ev' ≤ t0 + Z.max 0 d + 2 * len buses * 1000).
  { intros ev'. rewrite Htr. intros [Hin|Hin]%elem_of_app.
    - unfold submits in Hin. apply list_elem_of_fmap in Hin as (b & -> & _).
      simpl. lia.
    - destruct (wait_events_only _ _ _ _ _ _ Hall1 Hin) as [? _]. lia. }
  destruct r2 as [[]|e]; [|exact (Hfirst ev)].
  destruct (sleep_error d) as [es|] eqn:Hd; [exact (Hfirst ev)|].
  apply sleep_error_None in Hd as [Hd _].
  destruct (count_enabled _ _ _ _) as [sf r] eqn:Hcount.
  pose proof (count_enabled_clock _ _ _ _ _ _ Hcount) as Hclock2.
  rewrite futures_of_length in Hclock2. simpl in Hclock2.
  fold (len buses) in Hclock2. unfold RESULT_TIMEOUT in Hclock2.
  apply count_enabled_spec in Hcount as (W2 & Htr2 & Hnow2 & Hall2 & _).
  2:{ intros f Hf. apply futures_of_submitted in Hf. simpl. lia. }
  simpl in Htr2, Hnow2, Hall2. simpl. rewrite Htr2.
  rewrite !elem_of_app. intros [[[Hin|Hin]|Hin]|Hin].
  - by apply Hfirst.
  - apply list_elem_of_singleton in Hin as ->. simpl. lia.
  - unfold submits in Hin. apply list_elem_of_fmap in Hin as (b & -> & _).
    simpl. lia.
  - destruct (wait_events_only _ _ _ _ _ _ Hall2 Hin) as [? _]. lia.
Qed.

Lemma coordinator_wait_budget_witness :
  0 ≤ ev_time (Ev 2000 (Submit (control_path 3) authorize)) ≤
  0 + Z.max 0 1000 + 2 * len [bus1; bus3] * RESULT_TIMEOUT.
Proof.
  apply (coordinator_wait_budget world_slow_disable [bus1; bus3] 1000 0).
  in_trace.
Defined.

Lemma success_count_counts_enable_waits_witness :
  2 = Z.of_nat (length (filter (λ ev, enable_returned ev)
                          (trace (reset_buses_parallel world_disable_denied
                                    [bus1; bus3] 1000 (start 0)).1))).
Proof.
  apply (success_count_counts_enable_waits world_disable_denied
           [bus1; bus3] 1000 0 2).
  reflexivity.
Defined.

(** ** The entry point: further properties *)

(** X14: whatever the locator and the coordinator do, [main]'s [try]
    statement either returns one of the exit codes 0, 1, 2 and 130, or lets
    through an exception that is neither an [Exception] nor a
    [KeyboardInterrupt]. *)
Theorem main_from_exit_codes_only w found delay s :
  match (main_from w found delay s).2 with
  | Ok code => code = 0 ∨ code = 1 ∨ code = 2 ∨ code = 130
  | Raise e => is_Exception e = false ∧ is_class KeyboardInterrupt e = false
  end.
Proof.
  assert (Hraise : ∀ e,
    match (if is_class USBBusResetError e then Ok 1
           else if is_class KeyboardInterrupt e then Ok 130
           else if is_Exception e then Ok 1 else @Raise Z e) with
    | Ok code => code = 0 ∨ code = 1 ∨ code = 2 ∨ code = 130
    | Raise e => is_Exception e = false ∧ is_class KeyboardInterrupt e = false
    end).
  { intros [[] m]; simpl; auto. }
  destruct found as [buses|e].
  - destruct (decide (buses = [])) as [->|Hne]; [simpl; auto|].
    rewrite main_from_buses by done.
    destruct (reset_buses_parallel w buses delay s) as [s' [n|e]]; simpl.
    + destruct (n =? len buses); [auto|]. destruct (n >? 0); auto.
    + apply Hraise.
  - rewrite main_from_raise. simpl. apply Hraise.
Qed.

(** X13: [main] as written never reaches the coordinator: on every host
    and for every argument it leaves the driver state untouched (no write
    is submitted, nothing is slept). It returns 1 without root privileges;
    with them it returns 0 exactly when the enumeration succeeds and the
    pass accepts no bus, 1 when a bus is accepted (the result set cannot be
    built) or the enumeration fails with an [Exception], and 130 on a
    [KeyboardInterrupt] from the enumeration. It never returns 2. *)
Theorem main_never_resets w reset_delay vendor_id s :
  (main w reset_delay vendor_id s).1 = s ∧
  (main w reset_delay vendor_id s).2 =
    (if negb (check_permissions w) then Ok 1
     else match accepted_buses w (py_or vendor_id ELO_VENDOR_ID) with
          | Ok buses => if bool_decide (buses = ∅) then Ok 0 else Ok 1
          | Raise e =>
              if is_Exception e then Ok 1
              else if is_class KeyboardInterrupt e then Ok 130
              else Raise e
          end) ∧
  (main w reset_delay vendor_id s).2 ≠ Ok 2.
Proof.
  assert (Hmain :
    main w reset_delay vendor_id s =
    (s, if negb (check_permissions w) then Ok 1
        else match accepted_buses w (py_or vendor_id ELO_VENDOR_ID) with
             | Ok buses => if bool_decide (buses = ∅) then Ok 0 else Ok 1
             | Raise e =>
                 if is_Exception e then Ok 1
                 else if is_class KeyboardInterrupt e then Ok 130
                 else Raise e
             end)).
  { unfold main. destruct (negb (check_permissions w)); [done|].
    unfold find_elo_buses.
    destruct (accepted_buses w (py_or vendor_id ELO_VENDOR_ID))
      as [buses|e].
    - destruct (py_set_cases (dict_values buses)) as [[Hnil ->]|[Hne ->]].
      + apply dict_values_nil in Hnil.
        by rewrite bool_decide_eq_true_2.
      + rewrite bool_decide_eq_false_2; [by rewrite main_from_raise|].
        intros Hempty. by apply dict_values_nil in Hempty.
    - destruct (is_Exception e) eqn:He; rewrite main_from_raise; [done|].
      by destruct e as [[] ?]. }
  rewrite Hmain. simpl. split_and!; [done | done |].
  destruct (negb (check_permissions w)); [intros H; discriminate H|].
  destruct (accepted_buses w (py_or vendor_id ELO_VENDOR_ID)) as [buses|e].
  - destruct (bool_decide (buses = ∅)); intros H; discriminate H.
  - destruct e as [[] ?]; simpl; intros H; discriminate H.
Qed.

(** X16: with a delay [time.sleep] cannot convert (beyond [SLEEP_MAX] in
    either direction) and one or more buses, the coordinator submits every
    disable write, waits for them, and then ends with the [OverflowError] of
    [time.sleep]: no enable write is ever submitted (unless a disable wait
    already raised outside [Exception]), and [main]'s [try] statement turns
    the error into exit code 1. *)
Theorem coordinator_oversized_delay w buses d t0 :
  d < - SLEEP_MAX ∨ SLEEP_MAX < d →
  buses ≠ [] →
  (∀ b e, b ∈ buses →
          raised (write_text w (sysfs_path b) deauthorize) = Some e →
          is_Exception e = true) →
  let run := reset_buses_parallel w buses d (start t0) in
  run.2 = Raise sleep_overflow ∧
  (∀ b, b ∈ buses → Ev t0 (Submit (sysfs_path b) deauthorize) ∈ trace run.1) ∧
  (∀ ev, ev ∈ trace run.1 → is_enable_write ev = false) ∧
  (main_from w (Ok buses) d (start t0)).2 = Ok 1.
Proof.
  intros Hd Hne Hexc. simpl.
  rewrite main_from_buses by done.
  rewrite reset_buses_parallel_steps by done.
  destruct (await_disabled w (futures_of deauthorize t0 buses)
              (Driver t0 (submits deauthorize t0 buses))) as [s2 r2] eqn:Hrun.
  assert (r2 = Ok tt) as ->.
  { eapply await_disabled_ok; [exact Hexc | | exact Hrun].
    intros f Hf. apply futures_of_submitted in Hf. simpl. lia. }
  apply await_disabled_spec in Hrun as (W1 & Htr & _ & Hall1 & _).
  2:{ intros f Hf. apply futures_of_submitted in Hf. simpl. lia. }
  simpl in Htr.
  rewrite (sleep_error_overflow d Hd).
  simpl. rewrite Htr. split_and!; [done | | | done].
  - intros b Hb. rewrite elem_of_app. left. apply elem_of_submits. eauto.
  - intros ev [Hin|Hin]%elem_of_app.
    + unfold submits in Hin. apply list_elem_of_fmap in Hin as (b & -> & _).
      done.
    + by eapply disable_waits_not_enable.
Qed.

Lemma coordinator_oversized_delay_witness :
  let d := 10000000000000 in
  let run := reset_buses_parallel world_two_buses [bus1; bus3] d (start 0) in
  run.2 = Raise sleep_overflow ∧
  (∀ b, b ∈ [bus1; bus3] →
        Ev 0 (Submit (sysfs_path b) deauthorize) ∈ trace run.1) ∧
  (∀ ev, ev ∈ trace run.1 → is_enable_write ev = false) ∧
  (main_from world_two_buses (Ok [bus1; bus3]) d (start 0)).2 = Ok 1.
Proof.
  apply (coordinator_oversized_delay world_two_buses [bus1; bus3]
           10000000000000 0).
  - right. unfold SLEEP_MAX. lia.
  - discriminate.
  - intros b e Hb. discriminate.
Defined.
